(** * gotsdb: the two-tier storage engine of [internal/storage]

    A shallow embedding of [hot.go], [cold.go] and [engine.go].

    - Go strings are byte strings: [string].
    - A Go [map] is a [gmap]; the collections held by the hot store are
      never shared between two owners ([LoadCollection] stores a map that
      the decoder has just allocated, [CreateCollection] a fresh literal),
      so in-place mutation of a collection is an update of the registry.
    - The file system is a finite map from absolute, lexically clean
      paths to nodes.  Permissions, symbolic links and limits on name
      length are outside the model.
    - Every method takes the state it reads and returns the state it
      leaves, together with its Go result.
    - Logging through [zap] does not touch that state and is left out. *)

From Stdlib Require Import String Ascii Strings.Byte NArith List Lia.
From stdpp Require Import gmap strings list fin_maps.

(** ** Strings *)

Module Strings.

(** [strings.Split(s, sep)[0]]: the part of [s] before the first
    occurrence of [sep], the whole of [s] when there is none
    ([sep] is not empty at the only call site). *)
Fixpoint SplitFirst (sep s : string) : string :=
  if String.prefix sep s then ""
  else match s with
       | "" => ""
       | String a t => String a (SplitFirst sep t)
       end.

(** The fields of [s] between the occurrences of the byte [sep]. *)
Fixpoint fields (sep : ascii) (s : string) : list string :=
  match s with
  | "" => [""]
  | String a t =>
      if Ascii.eqb a sep then "" :: fields sep t
      else match fields sep t with
           | [] => [String a ""]
           | f :: fs => String a f :: fs
           end
  end.

Definition hasNUL (s : string) : bool :=
  existsb (Ascii.eqb Ascii.zero) (list_ascii_of_string s).

End Strings.

(** ** UTF-8 decoding, as package [unicode/utf8] does it *)

Module utf8.

Definition RuneError : N := 0xFFFD.

Definition between (lo hi b : N) : bool := (lo <=? b)%N && (b <=? hi)%N.

Definition size (n : nat) (lo hi : N) : option (nat * N * N) := Some (n, lo, hi).

(** The [first] table together with [acceptRanges]: for a leading byte
    the length of the sequence and the range accepted for the second
    byte; [None] for a byte that cannot lead. *)
Definition lead (b : N) : option (nat * N * N) :=
  if between 0xC2 0xDF b then size 2 0x80 0xBF
  else if (b =? 0xE0)%N then size 3 0xA0 0xBF
  else if between 0xE1 0xEC b then size 3 0x80 0xBF
  else if (b =? 0xED)%N then size 3 0x80 0x9F
  else if between 0xEE 0xEF b then size 3 0x80 0xBF
  else if (b =? 0xF0)%N then size 4 0x90 0xBF
  else if between 0xF1 0xF3 b then size 4 0x80 0xBF
  else if (b =? 0xF4)%N then size 4 0x80 0x8F
  else None.

Definition low6 (b : N) : N := N.land b 0x3F.

Definition DecodeRuneInString (s : string) : N * nat :=
  match s with
  | "" => (RuneError, 0)
  | String a0 t0 =>
      let s0 := N_of_ascii a0 in
      if (s0 <? 0x80)%N then (s0, 1)
      else match lead s0, t0 with
           | Some (sz, lo, hi), String a1 t1 =>
               let s1 := N_of_ascii a1 in
               if negb (between lo hi s1) then (RuneError, 1)
               else if Nat.leb sz 2 then
                 (N.lor (N.shiftl (N.land s0 0x1F) 6) (low6 s1), 2)
               else match t1 with
                    | String a2 t2 =>
                        let s2 := N_of_ascii a2 in
                        if negb (between 0x80 0xBF s2) then (RuneError, 1)
                        else if Nat.leb sz 3 then
                          (N.lor (N.shiftl (N.land s0 0x0F) 12)
                             (N.lor (N.shiftl (low6 s1) 6) (low6 s2)), 3)
                        else match t2 with
                             | String a3 _ =>
                                 let s3 := N_of_ascii a3 in
                                 if negb (between 0x80 0xBF s3)
                                 then (RuneError, 1)
                                 else
                                   (N.lor (N.shiftl (N.land s0 0x07) 18)
                                      (N.lor (N.shiftl (low6 s1) 12)
                                         (N.lor (N.shiftl (low6 s2) 6)
                                            (low6 s3))), 4)
                             | "" => (RuneError, 1)
                             end
                    | "" => (RuneError, 1)
                    end
           | _, _ => (RuneError, 1)
           end
  end.

(** The runes of [s] in order; [skip] counts the bytes of [s] that
    belong to the rune decoded last. *)
Fixpoint runesFrom (skip : nat) (s : string) : list N :=
  match s with
  | "" => []
  | String _ t =>
      match skip with
      | S k => runesFrom k t
      | O => let '(r, w) := DecodeRuneInString s in r :: runesFrom (pred w) t
      end
  end.

Definition runes (s : string) : list N := runesFrom 0 s.

End utf8.

(** ** Regular expressions, as far as [regexp.MatchString] is used *)

Module regexp.

Inductive Regexp :=
| NoMatch
| EmptyMatch
| CharClass (p : N → bool)
| Concat (r1 r2 : Regexp)
| Alternate (r1 r2 : Regexp)
| Star (r : Regexp).

Definition Plus (r : Regexp) : Regexp := Concat r (Star r).

Fixpoint Literal (s : string) : Regexp :=
  match s with
  | "" => EmptyMatch
  | String a t => Concat (CharClass (N.eqb (N_of_ascii a))) (Literal t)
  end.

(** [.] without the [s] flag: any rune but a line feed. *)
Definition AnyCharNotNL : Regexp := CharClass (λ r, negb (r =? 10)%N).
Definition AnyChar : Regexp := CharClass (λ _, true).

Fixpoint nullable (r : Regexp) : bool :=
  match r with
  | NoMatch => false
  | EmptyMatch => true
  | CharClass _ => false
  | Concat r1 r2 => nullable r1 && nullable r2
  | Alternate r1 r2 => nullable r1 || nullable r2
  | Star _ => true
  end.

(** What is left of [r] once the rune [c] has been read. *)
Fixpoint deriv (c : N) (r : Regexp) : Regexp :=
  match r with
  | NoMatch => NoMatch
  | EmptyMatch => NoMatch
  | CharClass p => if p c then EmptyMatch else NoMatch
  | Concat r1 r2 =>
      if nullable r1
      then Alternate (Concat (deriv c r1) r2) (deriv c r2)
      else Concat (deriv c r1) r2
  | Alternate r1 r2 => Alternate (deriv c r1) (deriv c r2)
  | Star r1 => Concat (deriv c r1) (Star r1)
  end.

Definition fullMatch (r : Regexp) (text : list N) : bool :=
  nullable (foldl (λ r c, deriv c r) r text).

(** [MatchString] reports whether [s] contains any match of the
    pattern: the pattern is not anchored. *)
Definition MatchString (r : Regexp) (s : string) : bool :=
  fullMatch (Concat (Star AnyChar) (Concat r (Star AnyChar))) (utf8.runes s).

(** The words of a regular expression. *)
Inductive lang : Regexp → list N → Prop :=
| lang_empty : lang EmptyMatch []
| lang_class p c : p c = true → lang (CharClass p) [c]
| lang_concat r1 r2 w1 w2 : lang r1 w1 → lang r2 w2 → lang (Concat r1 r2) (w1 ++ w2)
| lang_alt_l r1 r2 w : lang r1 w → lang (Alternate r1 r2) w
| lang_alt_r r1 r2 w : lang r2 w → lang (Alternate r1 r2) w
| lang_star_nil r : lang (Star r) []
| lang_star_app r w1 w2 : lang r w1 → lang (Star r) w2 → lang (Star r) (w1 ++ w2).

End regexp.

(** ** Errors

    Go's [error] values, by dynamic type: [errors.New] gives an
    [*errors.errorString] that carries nothing but its text, package
    [os] gives an [*fs.PathError], and the decoder of [encoding/gob]
    reports a stream it cannot read. *)

Inductive Errno := ENOENT | ENOTDIR | EISDIR | EINVAL.

Inductive error :=
| errorString (s : string)
| PathError (Op Path : string) (Err : Errno)
| gobError.

(** The dynamic type of an error value: what a type switch or
    [errors.As] can tell apart without looking at the text. *)
Inductive errorType := T_errorString | T_PathError | T_gobError.

Definition dynamicType (e : error) : errorType :=
  match e with
  | errorString _ => T_errorString
  | PathError _ _ _ => T_PathError
  | gobError => T_gobError
  end.

(** A Go result [(T, error)]. *)
Inductive result (A : Type) :=
| Ok (a : A)
| Err (e : error).
Arguments Ok {A} a.
Arguments Err {A} e.

(** Modelled from the spec: the declaration of the type [Collection] is
    not among the sources; the data model gives it as a mapping from
    string key to string value. *)
Abbreviation Collection := (gmap string string).

(** ** Paths and the file system *)

Module filepath.

Definition cleanStep (stack : list string) (c : string) : list string :=
  if String.eqb c "" || String.eqb c "." then stack
  else if String.eqb c ".." then removelast stack
  else stack ++ [c].

(** [Clean] of a rooted path given by its elements. *)
Definition Clean (elems : list string) : list string := foldl cleanStep [] elems.

(** [Join(dir, elem)] for a rooted [dir] and a non-empty [elem]:
    [Clean(dir + "/" + elem)]. *)
Definition Join (dir : list string) (elem : string) : list string :=
  Clean (dir ++ Strings.fields "/" elem).

(** The text of a clean rooted path. *)
Definition String (p : list string) : string :=
  match p with
  | [] => "/"
  | _ => String.concat "" (map (String.append "/") p)
  end.

(** [IsAbs(path)]. *)
Definition IsAbs (path : string) : bool := String.prefix "/" path.

(** [Abs(path)] when the working directory is [cwd]: [Clean(path)] for
    a rooted path, [Join(cwd, path)] otherwise. *)
Definition Abs (cwd : list string) (path : string) : list string :=
  if IsAbs path then Clean (Strings.fields "/" path)
  else Clean (cwd ++ Strings.fields "/" path).

End filepath.

Module os.

Inductive node :=
| Dir
| File (data : list byte).

Abbreviation FS := (gmap (list string) node).

(** Path resolution below the directory [cur], itself known to be a
    directory. *)
Fixpoint walk (fs : FS) (cur rest : list string) : Errno + node :=
  match rest with
  | [] => inr Dir
  | c :: rest' =>
      match fs !! (cur ++ [c]), rest' with
      | None, _ => inl ENOENT
      | Some n, [] => inr n
      | Some Dir, _ => walk fs (cur ++ [c]) rest'
      | Some (File _), _ => inl ENOTDIR
      end
  end.

Definition hasNUL (p : list string) : bool := existsb Strings.hasNUL p.

(** [os.Stat]. *)
Definition Stat (fs : FS) (p : list string) : Errno + node :=
  if hasNUL p then inl EINVAL else walk fs [] p.

(** [os.OpenFile(p, O_RDONLY, _)]: the node a descriptor is opened on. *)
Definition OpenFileRdonly (fs : FS) (p : list string) : Errno + node := Stat fs p.

(** [os.OpenFile(p, O_RDWR|O_CREATE|O_TRUNC, _)]: the file is created
    when its directory exists, and is emptied when it exists. *)
Definition OpenFileTrunc (fs : FS) (p : list string) : Errno + FS :=
  if hasNUL p then inl EINVAL
  else match p with
       | [] => inl EISDIR
       | _ =>
           match walk fs [] (removelast p) with
           | inl e => inl e
           | inr (File _) => inl ENOTDIR
           | inr Dir =>
               match fs !! p with
               | Some Dir => inl EISDIR
               | _ => inr (<[p := File []]> fs)
               end
           end
       end.

(** [File.Write] at the end of an open regular file. *)
Definition Write (fs : FS) (p : list string) (b : list byte) : FS :=
  match fs !! p with
  | Some (File old) => <[p := File (old ++ b)]> fs
  | _ => fs
  end.

(** [File.Readdir(-1)] on the directory [dir]: name and node of
    every entry, in the order in which the map enumerates them. *)
Definition Readdir (fs : FS) (dir : list string) : list (string * node) :=
  omap (λ '(p, n),
          match reverse p with
          | name :: rdir => if decide (reverse rdir = dir) then Some (name, n) else None
          | [] => None
          end)
       (map_to_list fs).

(** What [os.Mkdir] can report: the errors of path resolution, and a
    path that exists already. *)
Inductive MkdirErrno :=
| EEXIST
| Resolve (e : Errno).

(** [os.Mkdir(p, os.ModePerm)]: the directory is created when its
    parent is a directory and nothing has its name. *)
Definition Mkdir (fs : FS) (p : list string) : MkdirErrno + FS :=
  if hasNUL p then inl (Resolve EINVAL)
  else match p with
       | [] => inl EEXIST
       | _ =>
           match walk fs [] (removelast p) with
           | inl e => inl (Resolve e)
           | inr (File _) => inl (Resolve ENOTDIR)
           | inr Dir =>
               match fs !! p with
               | Some _ => inl EEXIST
               | None => inr (<[p := Dir]> fs)
               end
           end
       end.

End os.

(** ** [encoding/gob]

    The encoder and the decoder are taken as an interface.  The order
    in which the encoder visits the entries of a map is part of the
    instance; every statement below is made for all instances. *)

Module gob.

Class Codec := {
  Encode : Collection → list byte;
  Decode : list byte → option Collection
}.

(** What the decoder reads back from the encoder's output. *)
Class RoundTrip (C : Codec) : Prop :=
  decode_encode : ∀ m : Collection, Decode (Encode m) = Some m.

End gob.

(** ** [cold.go] *)

Module ColdStorageService.

Record t := { dataDir : list string }.

(** [filepath.Join(svc.dataDir, fmt.Sprintf("%s.tsdata", id))]. *)
Definition dataFilePath (svc : t) (id : string) : list string :=
  filepath.Join (dataDir svc) (id +:+ ".tsdata").

(** The constant pattern of [ListCollections], ["[a-zA-Z0-9]+.tsdata"]:
    one or more letters or digits, any one character, then [tsdata]. *)
Definition alnum (r : N) : bool :=
  utf8.between 97 122 r || utf8.between 65 90 r || utf8.between 48 57 r.

Definition pattern : regexp.Regexp :=
  regexp.Concat (regexp.Plus (regexp.CharClass alnum))
    (regexp.Concat regexp.AnyCharNotNL (regexp.Literal "tsdata")).

(** The body of the loop of [ListCollections] for one child. *)
Definition collectionOfChild (child : string * os.node) : option string :=
  match child with
  | (_, os.Dir) => None
  | (name, os.File _) =>
      if regexp.MatchString pattern name
      then Some (Strings.SplitFirst ".tsdata" name)
      else None
  end.

Definition ListCollections (svc : t) (fs : os.FS) : result (list string) :=
  match os.OpenFileRdonly fs (dataDir svc) with
  | inl e => Err (PathError "open" (filepath.String (dataDir svc)) e)
  | inr (os.File _) => Err (PathError "readdirent" (filepath.String (dataDir svc)) ENOTDIR)
  | inr os.Dir => Ok (omap collectionOfChild (os.Readdir fs (dataDir svc)))
  end.

Definition CollectionExists (svc : t) (fs : os.FS) (id : string) : result bool :=
  let dataFilePath := dataFilePath svc id in
  match os.Stat fs dataFilePath with
  | inl ENOENT => Ok false
  | inl e => Err (PathError "stat" (filepath.String dataFilePath) e)
  | inr os.Dir =>
      Err (errorString ("File [" +:+ filepath.String dataFilePath
                          +:+ "] is a directory when it should be a normal file."))
  | inr (os.File _) => Ok true
  end.

Definition ReadFromDiskForId `{gob.Codec} (svc : t) (fs : os.FS) (id : string)
  : result Collection :=
  let p := dataFilePath svc id in
  match os.OpenFileRdonly fs p with
  | inl e => Err (PathError "open" (filepath.String p) e)
  | inr os.Dir => Err (PathError "read" (filepath.String p) EISDIR)
  | inr (os.File b) =>
      match gob.Decode b with
      | Some data => Ok data
      | None => Err gobError
      end
  end.

(** The states the file system goes through during [FlushToDisk]:
    after the file has been opened, and after the encoder has written. *)
Definition FlushToDiskTrace `{gob.Codec} (svc : t) (fs : os.FS) (id : string)
    (data : Collection) : list os.FS :=
  let p := dataFilePath svc id in
  match os.OpenFileTrunc fs p with
  | inl _ => []
  | inr fs1 => [fs1; os.Write fs1 p (gob.Encode data)]
  end.

Definition FlushToDisk `{gob.Codec} (svc : t) (fs : os.FS) (id : string)
    (data : Collection) : os.FS * option error :=
  let p := dataFilePath svc id in
  match os.OpenFileTrunc fs p with
  | inl e => (fs, Some (PathError "open" (filepath.String p) e))
  | inr fs1 => (os.Write fs1 p (gob.Encode data), None)
  end.

(** [NewColdStorageService(dataDir)] when the working directory is
    [cwd]: the data directory is made when [os.Stat] reports that it
    does not exist, and is taken as it is found in every other case.
    The error is that of [os.Mkdir]. *)
Definition NewColdStorageService (cwd : list string) (dataDir : string) (fs : os.FS)
  : os.MkdirErrno + (os.FS * t) :=
  let dataDirPath := filepath.Abs cwd dataDir in
  match os.Stat fs dataDirPath with
  | inl ENOENT =>
      match os.Mkdir fs dataDirPath with
      | inl e => inl e
      | inr fs' => inr (fs', {| dataDir := dataDirPath |})
      end
  | _ => inr (fs, {| dataDir := dataDirPath |})
  end.

(** [getDataFileForId]: the handle it returns is open on the data file
    of [id], created or emptied. *)
Definition getDataFileForId (svc : t) (fs : os.FS) (id : string) : os.FS * option error :=
  let p := dataFilePath svc id in
  match os.OpenFileTrunc fs p with
  | inl e => (fs, Some (PathError "open" (filepath.String p) e))
  | inr fs1 => (fs1, None)
  end.

End ColdStorageService.

(** ** [hot.go] *)

Module HotStorageService.

Record t := { collections : gmap string Collection }.

Definition NewHotStorageService : t := {| collections := ∅ |}.

Definition ListCollections (svc : t) : list string :=
  (map_to_list (collections svc)).*1.

Definition CollectionExists (svc : t) (id : string) : bool :=
  match collections svc !! id with
  | Some _ => true
  | None => false
  end.

Definition ReadKey (svc : t) (id key : string) : result string :=
  match collections svc !! id with
  | Some collection =>
      match collection !! key with
      | Some value => Ok value
      | None =>
          Err (errorString ("No value found for key [" +:+ key
                              +:+ "] in hot collection [" +:+ id +:+ "]."))
      end
  | None =>
      Err (errorString ("No collection found for collection id [" +:+ id
                          +:+ "] in hot storage."))
  end.

Definition WriteKey (svc : t) (id key value : string) : t * option error :=
  match collections svc !! id with
  | Some collection =>
      ({| collections := <[id := <[key := value]> collection]> (collections svc) |}, None)
  | None =>
      (svc, Some (errorString ("No collection found for collection id [" +:+ id
                                 +:+ "] in hot storage.")))
  end.

Definition CreateCollection (svc : t) (id : string) : t * option error :=
  if CollectionExists svc id
  then (svc, Some (errorString ("Collection already exists with id [" +:+ id
                                  +:+ "] in hot storage.")))
  else ({| collections := <[id := (∅ : Collection)]> (collections svc) |}, None).

Definition DropCollection (svc : t) (id : string) : t * option error :=
  match collections svc !! id with
  | Some _ => ({| collections := delete id (collections svc) |}, None)
  | None =>
      (svc, Some (errorString ("No collection found for collection id [" +:+ id
                                 +:+ "] in hot storage.")))
  end.

End HotStorageService.

(** ** [engine.go] *)

Module Engine.

(** The engine with the hot store it points to; the data directory of
    the cold store lives in the file system. *)
Record t := {
  cold : ColdStorageService.t;
  hot : HotStorageService.t;
  autoCreateCollection : bool
}.

Record World := { disk : os.FS; engine : t }.

Definition withHot (w : World) (h : HotStorageService.t) : World :=
  {| disk := disk w;
     engine := {| cold := cold (engine w); hot := h;
                  autoCreateCollection := autoCreateCollection (engine w) |} |}.

Definition withDisk (w : World) (fs : os.FS) : World :=
  {| disk := fs; engine := engine w |}.

(** A method body: it runs in a world, leaves a world, and returns a
    value or the error of the first [return ..., err] it reaches. *)
Definition M (A : Type) : Type := World → World * result A.

Definition ret {A} (a : A) : M A := λ w, (w, Ok a).
Definition fail {A} (e : error) : M A := λ w, (w, Err e).
Definition bind {A B} (m : M A) (k : A → M B) : M B :=
  λ w, match m w with
       | (w', Ok a) => k a w'
       | (w', Err e) => (w', Err e)
       end.

Declare Scope go_scope.
Delimit Scope go_scope with go.
Notation "x <- m ;; k" := (bind m (λ x, k))
  (at level 100, m at next level, right associativity) : go_scope.
Notation "m ;; k" := (bind m (λ _, k))
  (at level 100, right associativity) : go_scope.
Open Scope go_scope.

(** A call that returns only an [error]. *)
Definition check (o : option error) : result unit :=
  match o with
  | None => Ok tt
  | Some e => Err e
  end.

(** The calls on [e.hot] and [e.cold]. *)
Definition hot_CollectionExists (id : string) : M bool :=
  λ w, (w, Ok (HotStorageService.CollectionExists (hot (engine w)) id)).

Definition hot_ReadKey (id key : string) : M string :=
  λ w, (w, HotStorageService.ReadKey (hot (engine w)) id key).

Definition hot_WriteKey (id key value : string) : M unit :=
  λ w, let '(h, err) := HotStorageService.WriteKey (hot (engine w)) id key value in
       (withHot w h, check err).

Definition hot_CreateCollection (id : string) : M unit :=
  λ w, let '(h, err) := HotStorageService.CreateCollection (hot (engine w)) id in
       (withHot w h, check err).

Definition hot_DropCollection (id : string) : M unit :=
  λ w, let '(h, err) := HotStorageService.DropCollection (hot (engine w)) id in
       (withHot w h, check err).

(** [e.hot.collections[id]]: the zero value, a map without entries,
    when [id] is not a key. *)
Definition hot_collections_get (id : string) : M Collection :=
  λ w, (w, Ok (default (∅ : Collection)
                 (HotStorageService.collections (hot (engine w)) !! id))).

(** [e.hot.collections[id] = collection]. *)
Definition hot_collections_set (id : string) (collection : Collection) : M unit :=
  λ w, (withHot w {| HotStorageService.collections :=
                       <[id := collection]>
                         (HotStorageService.collections (hot (engine w))) |},
        Ok tt).

Definition cold_CollectionExists (id : string) : M bool :=
  λ w, (w, ColdStorageService.CollectionExists (cold (engine w)) (disk w) id).

Definition cold_ReadFromDiskForId `{gob.Codec} (id : string) : M Collection :=
  λ w, (w, ColdStorageService.ReadFromDiskForId (cold (engine w)) (disk w) id).

Definition cold_FlushToDisk `{gob.Codec} (id : string) (data : Collection) : M unit :=
  λ w, let '(fs, err) :=
         ColdStorageService.FlushToDisk (cold (engine w)) (disk w) id data in
       (withDisk w fs, check err).

Definition autoCreate : M bool :=
  λ w, (w, Ok (autoCreateCollection (engine w))).

(** The methods of [*Engine]. *)

Definition CollectionExists (id : string) : M bool :=
  isHot <- hot_CollectionExists id;;
  if isHot : bool then ret true
  else
    exists_ <- cold_CollectionExists id;;
    ret exists_.

Definition IsHot (id : string) : M bool :=
  exists_ <- CollectionExists id;;
  if exists_ : bool then hot_CollectionExists id
  else fail (errorString ("No collection found for collection id [" +:+ id
                            +:+ "] in hot or cold storage")).

Definition LoadCollection `{gob.Codec} (id : string) : M unit :=
  collection <- cold_ReadFromDiskForId id;;
  hot_collections_set id collection.

Definition FlushCollection `{gob.Codec} (id : string) : M unit :=
  isHot <- hot_CollectionExists id;;
  if isHot : bool then
    data <- hot_collections_get id;;
    cold_FlushToDisk id data;;
    hot_DropCollection id
  else fail (errorString ("No collection found for collection id [" +:+ id
                            +:+ "] in hot or cold storage")).

Definition ReadKey `{gob.Codec} (id key : string) : M string :=
  isHot <- hot_CollectionExists id;;
  if isHot : bool then
    value <- hot_ReadKey id key;;
    ret value
  else
    exists_ <- cold_CollectionExists id;;
    if exists_ : bool then
      LoadCollection id;;
      value <- hot_ReadKey id key;;
      ret value
    else fail (errorString ("No collection found for collection id [" +:+ id
                              +:+ "] in hot or cold storage")).

Definition LoadCollectionIfNotPresent `{gob.Codec} (id : string) : M unit :=
  isHot <- hot_CollectionExists id;;
  if isHot : bool then ret tt
  else
    exists_ <- cold_CollectionExists id;;
    if exists_ : bool then
      LoadCollection id;;
      ret tt
    else
      auto <- autoCreate;;
      if auto : bool then
        hot_CreateCollection id;;
        ret tt
      else fail (errorString ("Unable to find a collection to load into hot storage with id ["
                                +:+ id +:+ "].")).

Definition WriteKey `{gob.Codec} (id key value : string) : M unit :=
  LoadCollectionIfNotPresent id;;
  hot_WriteKey id key value.

(** [NewEngine(dataDir, autoCreate)] when the working directory is
    [cwd]. *)
Definition NewEngine (cwd : list string) (dataDir : string) (autoCreate : bool)
    (fs : os.FS) : os.MkdirErrno + World :=
  match ColdStorageService.NewColdStorageService cwd dataDir fs with
  | inl e => inl e
  | inr (fs', cold) =>
      inr {| disk := fs';
             engine := {| cold := cold;
                          hot := HotStorageService.NewHotStorageService;
                          autoCreateCollection := autoCreate |} |}
  end.

(** [if _, exists := ids[id]; !exists { ids[id] = true }]. *)
Definition addId (ids : gmap string bool) (id : string) : gmap string bool :=
  match ids !! id with
  | Some _ => ids
  | None => <[id := true]> ids
  end.

Definition hot_ListCollections : M (list string) :=
  λ w, (w, Ok (HotStorageService.ListCollections (hot (engine w)))).

Definition cold_ListCollections : M (list string) :=
  λ w, (w, ColdStorageService.ListCollections (cold (engine w)) (disk w)).

(** [ListCollections]: the ids are gathered as the keys of a map and
    read back by [range], here in the order in which the map enumerates
    them. *)
Definition ListCollections : M (list string) :=
  hotCollections <- hot_ListCollections;;
  coldCollections <- cold_ListCollections;;
  let ids := foldl addId (foldl addId ∅ hotCollections) coldCollections in
  ret (map_to_list ids).*1.

(** The loop of [FlushAllCollections] over the ids [order]: the error
    of every flush that fails is appended to [errs]. *)
Fixpoint flushEach `{gob.Codec} (order : list string) (errs : list error)
    (w : World) : World * list error :=
  match order with
  | [] => (w, errs)
  | id :: rest =>
      match FlushCollection id w with
      | (w', Err err) => flushEach rest (errs ++ [err]) w'
      | (w', Ok _) => flushEach rest errs w'
      end
  end.

(** [FlushAllCollections] when [range e.hot.collections] visits the ids
    in the order [order].  The body deletes no key but the one it is
    visiting and adds none, so [range] visits every key the registry
    had at the start exactly once; the language leaves the order open. *)
Definition FlushAllCollectionsIn `{gob.Codec} (order : list string) (w : World)
  : World * list error :=
  flushEach order [] w.

(** [FlushAllCollections], visiting in the order in which the map
    enumerates its keys. *)
Definition FlushAllCollections `{gob.Codec} (w : World) : World * list error :=
  FlushAllCollectionsIn (HotStorageService.ListCollections (hot (engine w))) w.

End Engine.

(** ** A codec that meets the interface

    One byte of header, then the binary digits, least significant first,
    of the code that [Countable] gives to the mapping. *)

Module bitcodec.

Fixpoint digits (p : positive) : list byte :=
  match p with
  | xH => []
  | xO q => x00 :: digits q
  | xI q => x01 :: digits q
  end.

Fixpoint undigits (b : list byte) : option positive :=
  match b with
  | [] => Some xH
  | x00 :: t => xO <$> undigits t
  | x01 :: t => xI <$> undigits t
  | _ => None
  end.

Definition Encode (m : Collection) : list byte := x67 :: digits (encode m).

Definition Decode (b : list byte) : option Collection :=
  match b with
  | x67 :: t => undigits t ≫= decode
  | _ => None
  end.

#[global] Instance codec : gob.Codec := {| gob.Encode := Encode; gob.Decode := Decode |}.

End bitcodec.

(** ** Tier membership *)

Inductive membership :=
| Hot (data : Collection)         (* materialised in memory *)
| ColdOnly (data : Collection)    (* persisted, not in memory *)
| Absent                          (* unknown to both tiers *)
| Unreadable (e : error).         (* the backing path cannot be used *)

(** Where the collection [id] lives, by the checks the engine makes: the
    registry of the hot store first, then [CollectionExists] and
    [ReadFromDiskForId] of the cold store. *)
Definition membershipOf `{gob.Codec} (w : Engine.World) (id : string) : membership :=
  match HotStorageService.collections (Engine.hot (Engine.engine w)) !! id with
  | Some data => Hot data
  | None =>
      let svc := Engine.cold (Engine.engine w) in
      match ColdStorageService.CollectionExists svc (Engine.disk w) id with
      | Err e => Unreadable e
      | Ok false => Absent
      | Ok true =>
          match ColdStorageService.ReadFromDiskForId svc (Engine.disk w) id with
          | Ok data => ColdOnly data
          | Err e => Unreadable e
          end
      end
  end.

(** The contents of [id] read through the tiers: the hot copy when there
    is one, else the cold copy. *)
Definition contentsOf `{gob.Codec} (w : Engine.World) (id : string) : option Collection :=
  match membershipOf w id with
  | Hot data | ColdOnly data => Some data
  | Absent | Unreadable _ => None
  end.

(** [WriteKey] for each of a list of key/value pairs, one call after the
    other, each call returning before the next is made. *)
Fixpoint WriteKeys `{gob.Codec} (id : string) (writes : list (string * string))
  : Engine.M unit :=
  match writes with
  | [] => Engine.ret tt
  | (key, value) :: rest =>
      Engine.bind (Engine.WriteKey id key value) (λ _, WriteKeys id rest)
  end.

(** ** Calls of [WriteKey] that overlap

    A call in progress is a program counter into the body of [WriteKey],
    with [LoadCollectionIfNotPresent], [LoadCollection] and
    [CreateCollection] inlined.  A step runs the statement at the
    counter; the source holds no lock, so another call may take a step
    between any two. *)

Module Concurrent.

Inductive pc :=
| CheckHot                            (* if e.hot.CollectionExists(id) *)
| CheckCold                           (* exists, err := e.cold.CollectionExists(id) *)
| LoadRead                            (* collection, err := e.cold.ReadFromDiskForId(id) *)
| LoadStore (collection : Collection) (* e.hot.collections[id] = collection *)
| CreateCheck                         (* if svc.CollectionExists(id) *)
| CreateStore                         (* svc.collections[id] = Collection{} *)
| HotWrite                            (* return e.hot.WriteKey(id, key, value) *)
| Returned (err : option error).

Record call := { id : string; key : string; value : string; at_ : pc }.

Definition WriteKey (id key value : string) : call :=
  {| id := id; key := key; value := value; at_ := CheckHot |}.

Definition goto (c : call) (p : pc) : call :=
  {| id := id c; key := key c; value := value c; at_ := p |}.

Definition step `{gob.Codec} (c : call) (w : Engine.World) : Engine.World * call :=
  let e := Engine.engine w in
  match at_ c with
  | CheckHot =>
      if HotStorageService.CollectionExists (Engine.hot e) (id c)
      then (w, goto c HotWrite)
      else (w, goto c CheckCold)
  | CheckCold =>
      match ColdStorageService.CollectionExists (Engine.cold e) (Engine.disk w) (id c) with
      | Err err => (w, goto c (Returned (Some err)))
      | Ok true => (w, goto c LoadRead)
      | Ok false =>
          if Engine.autoCreateCollection e
          then (w, goto c CreateCheck)
          else (w, goto c (Returned (Some (errorString
                 ("Unable to find a collection to load into hot storage with id ["
                    +:+ id c +:+ "].")))))
      end
  | LoadRead =>
      match ColdStorageService.ReadFromDiskForId (Engine.cold e) (Engine.disk w) (id c) with
      | Err err => (w, goto c (Returned (Some err)))
      | Ok collection => (w, goto c (LoadStore collection))
      end
  | LoadStore collection =>
      (Engine.withHot w {| HotStorageService.collections :=
                             <[id c := collection]>
                               (HotStorageService.collections (Engine.hot e)) |},
       goto c HotWrite)
  | CreateCheck =>
      if HotStorageService.CollectionExists (Engine.hot e) (id c)
      then (w, goto c (Returned (Some (errorString
              ("Collection already exists with id [" +:+ id c
                 +:+ "] in hot storage.")))))
      else (w, goto c CreateStore)
  | CreateStore =>
      (Engine.withHot w {| HotStorageService.collections :=
                             <[id c := (∅ : Collection)]>
                               (HotStorageService.collections (Engine.hot e)) |},
       goto c HotWrite)
  | HotWrite =>
      let '(h, err) :=
        HotStorageService.WriteKey (Engine.hot e) (id c) (key c) (value c) in
      (Engine.withHot w h, goto c (Returned err))
  | Returned _ => (w, c)
  end.

(** One step of the call at index [i]. *)
Definition stepAt `{gob.Codec} (i : nat) (s : Engine.World * list call)
  : Engine.World * list call :=
  match s.2 !! i with
  | Some c => let '(w', c') := step c s.1 in (w', <[i := c']> s.2)
  | None => s
  end.

(** A schedule names, step by step, the call that runs. *)
Definition run `{gob.Codec} (schedule : list nat) (s : Engine.World * list call)
  : Engine.World * list call :=
  foldl (λ s i, stepAt i s) s schedule.

Definition returned (c : call) : option (option error) :=
  match at_ c with
  | Returned err => Some err
  | _ => None
  end.

(** A call that runs alone returns within six steps. *)
Definition alone : list nat := replicate 6 0.

(** What first touch asks of one schedule of the calls [cs] on the
    collection [c]: once every call has returned, none has returned an
    error and [c] is hot and holds every key that was written. *)
Definition firstTouchOk `{gob.Codec} (w : Engine.World) (cs : list call)
    (c : string) (schedule : list nat) : Prop :=
  let '(w', cs') := run schedule (w, cs) in
  Forall (λ c', is_Some (returned c')) cs' →
  Forall (λ c', returned c' = Some None) cs' ∧
  ∃ data, HotStorageService.collections (Engine.hot (Engine.engine w')) !! c = Some data ∧
          Forall (λ c', is_Some (data !! key c')) cs.

End Concurrent.

(** ** The claims as predicates *)

(** A name of the form [<id>.tsdata] with [id] made of one or more ASCII
    letters and digits. *)
Definition alnumId (id : string) : bool :=
  match id with
  | "" => false
  | _ => forallb (λ a, ColdStorageService.alnum (N_of_ascii a)) (list_ascii_of_string id)
  end.



(** A reader of the backing file of [id] sees, in every state the file
    system goes through during [FlushToDisk], either what the file was
    before or the complete new encoding. *)
Definition atomicVisible `{gob.Codec} (svc : ColdStorageService.t) (fs : os.FS)
    (id : string) (data : Collection) : Prop :=
  let p := ColdStorageService.dataFilePath svc id in
  Forall (λ fs', fs' !! p = fs !! p ∨ fs' !! p = Some (os.File (gob.Encode data)))
         (ColdStorageService.FlushToDiskTrace svc fs id data).

(** ** Worlds *)

Definition hotOf (w : Engine.World) : gmap string Collection :=
  HotStorageService.collections (Engine.hot (Engine.engine w)).

Definition withCollections (w : Engine.World) (m : gmap string Collection) : Engine.World :=
  Engine.withHot w {| HotStorageService.collections := m |}.

Definition withAutoCreate (w : Engine.World) (b : bool) : Engine.World :=
  {| Engine.disk := Engine.disk w;
     Engine.engine := {| Engine.cold := Engine.cold (Engine.engine w);
                         Engine.hot := Engine.hot (Engine.engine w);
                         Engine.autoCreateCollection := b |} |}.

(** An engine with the data directory [/data] and an empty hot store,
    over the file system [fs]. *)
Definition engineOver (fs : os.FS) (autoCreate : bool) : Engine.World :=
  {| Engine.disk := fs;
     Engine.engine := {| Engine.cold := {| ColdStorageService.dataDir := ["data"] |};
                         Engine.hot := HotStorageService.NewHotStorageService;
                         Engine.autoCreateCollection := autoCreate |} |}.

(** The collected result of the writes [writes] to an empty collection. *)
Definition written (writes : list (string * string)) : Collection :=
  foldl (λ d kv, <[kv.1 := kv.2]> d) ∅ writes.


(** The two failures of [HotStorageService.ReadKey], for a collection
    that is not hot and for a key that a hot collection does not hold,
    are values of different dynamic types. *)
Definition kindsDistinct (svc : HotStorageService.t) (id id' key : string) : Prop :=
  ∀ e1 e2,
    HotStorageService.collections svc !! id = None →
    is_Some (HotStorageService.collections svc !! id') →
    HotStorageService.ReadKey svc id key = Err e1 →
    HotStorageService.ReadKey svc id' key = Err e2 →
    dynamicType e1 ≠ dynamicType e2.







(** ** Example worlds *)

Module example.

(** A file system that holds the data directory and nothing else. *)
Definition emptyDisk : os.FS := {[ ["data"] := os.Dir ]}.

Definition kv : Collection := {[ "k" := "v" ]}.

(** The data directory holds the persisted collection [c]. *)
Definition coldDisk : os.FS :=
  <[ ["data"; "c.tsdata"] := os.File (bitcodec.Encode kv) ]> emptyDisk.

(** The path of [c] is taken by a directory. *)
Definition blockedDisk : os.FS :=
  <[ ["data"; "c.tsdata"] := os.Dir ]> emptyDisk.

(** Nothing anywhere; auto-create on, and off. *)
Definition fresh : Engine.World := engineOver emptyDisk true.
Definition strict : Engine.World := engineOver emptyDisk false.

(** [c] hot and never flushed. *)
Definition hotOnly : Engine.World := withCollections fresh {[ "c" := kv ]}.

(** [c] persisted and not loaded. *)
Definition coldOnly : Engine.World := engineOver coldDisk true.

(** [c] hot, its path on disk taken by a directory. *)
Definition blocked : Engine.World :=
  withCollections (engineOver blockedDisk true) {[ "c" := kv ]}.



Definition svc : ColdStorageService.t := {| ColdStorageService.dataDir := ["data"] |}.

(** Two calls that touch the absent collection [c] for the first time. *)
Definition twoCalls : list Concurrent.call :=
  [Concurrent.WriteKey "c" "k1" "v1"; Concurrent.WriteKey "c" "k2" "v2"].

(** Both calls pass the checks of [LoadCollectionIfNotPresent]; the
    first then creates and writes; the second finds the collection
    in [CreateCollection]. *)
Definition duplicateCreate : list nat := [0; 1; 0; 1; 0; 0; 0; 1].

(** Both calls pass the check of [CreateCollection] as well; the
    second stores its empty collection over what the first has
    written. *)
Definition lostUpdate : list nat := [0; 1; 0; 1; 0; 1; 0; 0; 1; 1].

End example.

(** ** Tactics *)

(** Unfold the methods of the engine and of the hot store down to the
    calls on the cold store. *)
Ltac unfold_engine :=
  unfold Engine.WriteKey, Engine.LoadCollectionIfNotPresent, Engine.ReadKey,
    Engine.FlushCollection, Engine.LoadCollection, Engine.IsHot,
    Engine.CollectionExists, Engine.bind, Engine.ret, Engine.fail,
    Engine.hot_CollectionExists, Engine.hot_ReadKey, Engine.hot_WriteKey,
    Engine.hot_CreateCollection, Engine.hot_DropCollection,
    Engine.hot_collections_get, Engine.hot_collections_set,
    Engine.cold_CollectionExists, Engine.cold_ReadFromDiskForId,
    Engine.cold_FlushToDisk, Engine.autoCreate, Engine.check,
    HotStorageService.WriteKey, HotStorageService.CreateCollection,
    HotStorageService.DropCollection, HotStorageService.CollectionExists,
    membershipOf, contentsOf, hotOf, withCollections, Engine.withHot,
    Engine.withDisk in *.

(** One step of a call that runs alone; [single] rewrites a step at
    index 0 of a one-element list of calls. *)
Ltac one_step single :=
  rewrite single; unfold Concurrent.step at 1 2, Concurrent.goto;
  cbn [Concurrent.at_ Concurrent.id Concurrent.key Concurrent.value fst snd
         Engine.disk Engine.engine Engine.cold Engine.hot Engine.autoCreateCollection
         HotStorageService.collections Engine.withHot].

(** ** Shapes of ids and directories *)

(** An id without a path separator. *)
Definition simpleId (id : string) : bool :=
  negb (existsb (Ascii.eqb "/") (list_ascii_of_string id)).

(** A path element that [Clean] keeps. *)
Definition plainElem (c : string) : bool :=
  negb (String.eqb c "" || String.eqb c "." || String.eqb c "..").

(** A directory given by elements that [Clean] keeps: a clean rooted
    path, as [filepath.Abs] returns it. *)
Definition cleanDir (dir : list string) : bool := forallb plainElem dir.

(** An engine with an empty hot store over the file system and the
    configuration of [w], as a restart of the process leaves it when
    the data directory is there. *)
Definition restarted (w : Engine.World) : Engine.World :=
  withCollections w ∅.

(** ** More example states *)

Module sample.

(** A hot store that holds [c], with one key, and nothing else. *)
Definition store : HotStorageService.t :=
  {| HotStorageService.collections := {[ "c" := example.kv ]} |}.

Definition kv2 : Collection := {[ "k" := "v2" ]}.

(** The persisted collection [c], and [d] flushed beside it. *)
Definition twoFiles : os.FS :=
  <[ ["data"; "d.tsdata"] := os.File (bitcodec.Encode kv2) ]> example.coldDisk.

(** A working directory [/srv] without a data directory, with one, and
    with a regular file in its place. *)
Definition bare : os.FS := {[ ["srv"] := os.Dir ]}.
Definition made : os.FS := <[ ["srv"; "data"] := os.Dir ]> bare.
Definition taken : os.FS := <[ ["srv"; "data"] := os.File [] ]> bare.

(** [a] hot and never flushed, [c] persisted and not loaded. *)
Definition mixed : Engine.World :=
  withCollections example.coldOnly {[ "a" := (∅ : Collection) ]}.

(** [c] and [d] hot over an empty data directory. *)
Definition twoHot : Engine.World :=
  withCollections example.fresh {[ "c" := example.kv; "d" := kv2 ]}.

(** Both flushed. *)
Definition twoCold : Engine.World := engineOver twoFiles true.

(** [c] and [d] hot, the path of [c] taken by a directory. *)
Definition oneBlocked : Engine.World :=
  withCollections (engineOver example.blockedDisk true)
    {[ "c" := example.kv; "d" := kv2 ]}.

End sample.

(** ** Regular expressions: a word of the language is matched *)

Section RegexpFacts.
Import regexp.

Lemma nullable_complete r : lang r [] → nullable r = true.
Proof.
  intros Hl. remember [] as w eqn:Hw.
  induction Hl; simpl; try done.
  - apply app_eq_nil in Hw as [-> ->]. by rewrite IHHl1, IHHl2.
  - by rewrite IHHl.
  - rewrite IHHl; [|done]. by rewrite orb_true_r.
Qed.

Lemma star_cons r c w :
  lang (Star r) (c :: w) →
  ∃ w1 w2, w = w1 ++ w2 ∧ lang r (c :: w1) ∧ lang (Star r) w2.
Proof.
  intros Hl. remember (Star r) as r' eqn:Hr. remember (c :: w) as cw eqn:Hw.
  revert Hr Hw. induction Hl; intros Hr Hw; try discriminate.
  injection Hr as ->.
  destruct w1 as [|c1 w1]; simpl in Hw.
  - by apply IHHl2.
  - injection Hw as -> <-. by exists w1, w2.
Qed.

Lemma deriv_complete c r w : lang r (c :: w) → lang (deriv c r) w.
Proof.
  revert w. induction r as [| |p|r1 IH1 r2 IH2|r1 IH1 r2 IH2|r IH]; intros w Hl; simpl.
  - inversion Hl.
  - inversion Hl.
  - inversion Hl as [|p' c' Hp| | | | |]; subst. rewrite Hp. constructor.
  - inversion Hl as [| |r1' r2' w1 w2 H1 H2 [Hr1 Hr2] Heq| | | |]; subst.
    destruct w1 as [|c1 w1]; simpl in Heq.
    + subst. rewrite (nullable_complete _ H1). apply lang_alt_r. by apply IH2.
    + injection Heq as -> <-.
      destruct (nullable r1); [apply lang_alt_l|]; constructor; auto.
  - inversion Hl; subst; [apply lang_alt_l | apply lang_alt_r]; auto.
  - apply star_cons in Hl as (w1 & w2 & -> & H1 & H2). constructor; auto.
Qed.

Lemma fullMatch_complete r w : lang r w → fullMatch r w = true.
Proof.
  unfold fullMatch. revert r. induction w as [|c w IH]; intros r Hl; simpl.
  - by apply nullable_complete.
  - apply IH. by apply deriv_complete.
Qed.

Lemma lang_Literal s : lang (Literal s) (map N_of_ascii (list_ascii_of_string s)).
Proof.
  induction s as [|a t IH]; simpl; [constructor|].
  apply (lang_concat _ _ [_] _); [|done].
  constructor. apply N.eqb_refl.
Qed.

Lemma lang_Plus_class p w :
  w ≠ [] → forallb p w = true → lang (Plus (CharClass p)) w.
Proof.
  destruct w as [|c w]; [done|]. intros _. simpl.
  intros [Hc Hw]%andb_prop. apply (lang_concat _ _ [c] w); [by constructor|].
  clear c Hc. induction w as [|d w IH]; [constructor|].
  simpl in Hw. apply andb_prop in Hw as [Hd Hw].
  apply (lang_star_app _ [d] w); [by constructor | by apply IH].
Qed.

End RegexpFacts.

(** ** Names of data files *)

Section NameFacts.

Lemma list_ascii_of_string_app s t :
  list_ascii_of_string (s +:+ t) = list_ascii_of_string s ++ list_ascii_of_string t.
Proof. induction s as [|a s IH]; simpl; [done|]. by rewrite IH. Qed.

Lemma alnum_bounds r :
  ColdStorageService.alnum r = true → (48 ≤ r ≤ 122)%N.
Proof.
  unfold ColdStorageService.alnum, utf8.between.
  rewrite !orb_true_iff, !andb_true_iff, !N.leb_le. lia.
Qed.

Lemma runes_ascii s :
  forallb (λ a, (N_of_ascii a <? 128)%N) (list_ascii_of_string s) = true →
  utf8.runes s = map N_of_ascii (list_ascii_of_string s).
Proof.
  unfold utf8.runes. induction s as [|a s IH]; [done|].
  simpl. intros [Ha Hs]%andb_prop. rewrite Ha. simpl. by rewrite IH.
Qed.

Lemma alnum_is_ascii l :
  forallb (λ a, ColdStorageService.alnum (N_of_ascii a)) l = true →
  forallb (λ a, (N_of_ascii a <? 128)%N) l = true.
Proof.
  induction l as [|a l IH]; [done|]. simpl.
  intros [Ha Hl]%andb_prop. rewrite IH by done.
  apply alnum_bounds in Ha. rewrite andb_true_r. apply N.ltb_lt. lia.
Qed.

Lemma forallb_fmap {A B} (f : A → B) (p : B → bool) l :
  forallb p (map f l) = forallb (λ a, p (f a)) l.
Proof. induction l as [|a l IH]; simpl; [done|]. by rewrite IH. Qed.

Lemma alnumId_chars id :
  alnumId id = true →
  id ≠ "" ∧ forallb (λ a, ColdStorageService.alnum (N_of_ascii a))
              (list_ascii_of_string id) = true.
Proof. destruct id; [done|]. intros H. split; [done|exact H]. Qed.

(** The pattern matches [<id>.tsdata] for an [id] of letters and digits. *)
Lemma MatchString_data_file id :
  alnumId id = true →
  regexp.MatchString ColdStorageService.pattern (id +:+ ".tsdata") = true.
Proof.
  intros [Hne Hal]%alnumId_chars. unfold regexp.MatchString.
  apply fullMatch_complete.
  rewrite runes_ascii.
  2:{ rewrite list_ascii_of_string_app, forallb_app.
      by rewrite (alnum_is_ascii _ Hal). }
  rewrite list_ascii_of_string_app, map_app.
  set (w1 := map N_of_ascii (list_ascii_of_string id)).
  set (w2 := map N_of_ascii (list_ascii_of_string ".tsdata")).
  assert (regexp.lang ColdStorageService.pattern (w1 ++ w2)) as Hpat.
  { unfold ColdStorageService.pattern. apply regexp.lang_concat.
    - apply lang_Plus_class.
      + subst w1. destruct id; done.
      + subst w1. by rewrite forallb_fmap.
    - apply (regexp.lang_concat _ _ [46%N] _); [by constructor|].
      apply (lang_Literal "tsdata"). }
  pose proof (regexp.lang_concat _ _ _ _ (regexp.lang_star_nil regexp.AnyChar)
                (regexp.lang_concat _ _ _ _ Hpat
                   (regexp.lang_star_nil regexp.AnyChar))) as H.
  simpl in H. by rewrite app_nil_r in H.
Qed.

Lemma SplitFirst_cons_ne c sep a t :
  c ≠ a →
  Strings.SplitFirst (String c sep) (String a t)
  = String a (Strings.SplitFirst (String c sep) t).
Proof.
  intros Hne. cbn [Strings.SplitFirst String.prefix].
  by destruct (ascii_dec c a).
Qed.

Lemma SplitFirst_data_file id :
  forallb (λ a, ColdStorageService.alnum (N_of_ascii a)) (list_ascii_of_string id) = true →
  Strings.SplitFirst ".tsdata" (id +:+ ".tsdata") = id.
Proof.
  induction id as [|a id IH]; [done|].
  simpl list_ascii_of_string. simpl forallb.
  intros [Ha Hid]%andb_prop. apply alnum_bounds in Ha.
  change (String a id +:+ ".tsdata") with (String a (id +:+ ".tsdata")).
  rewrite SplitFirst_cons_ne; [by rewrite IH|].
  intros <-. simpl in Ha. lia.
Qed.

End NameFacts.

(** ** The file system *)

Section FileSystemFacts.
Implicit Types (fs : os.FS) (p cur rest : list string).

Lemma walk_insert_short fs p n cur rest :
  length (cur ++ rest) < length p →
  os.walk (<[p := n]> fs) cur rest = os.walk fs cur rest.
Proof.
  revert cur. induction rest as [|c rest IH]; intros cur Hlen; [done|].
  simpl. rewrite lookup_insert_ne.
  2:{ intros ->. rewrite !length_app in Hlen. simpl in Hlen. lia. }
  destruct (fs !! (cur ++ [c])) as [[|b]|]; destruct rest as [|c' rest]; try done.
  apply IH. rewrite <- app_assoc. exact Hlen.
Qed.

Lemma walk_snoc fs cur q c :
  os.walk fs cur (q ++ [c]) =
    match os.walk fs cur q with
    | inl e => inl e
    | inr os.Dir =>
        match fs !! (cur ++ q ++ [c]) with
        | None => inl ENOENT
        | Some n => inr n
        end
    | inr (os.File _) => inl ENOTDIR
    end.
Proof.
  revert cur. induction q as [|c0 q IH]; intros cur.
  - simpl. by destruct (fs !! (cur ++ [c])) as [[|?]|].
  - change ((c0 :: q) ++ [c]) with (c0 :: (q ++ [c])).
    cbn [os.walk].
    destruct (fs !! (cur ++ [c0])) as [[|b]|] eqn:Hc0.
    + destruct q as [|c1 q].
      * simpl. rewrite <- app_assoc. simpl.
        by destruct (fs !! (cur ++ [c0; c])) as [[|?]|].
      * change ((c1 :: q) ++ [c]) with (c1 :: (q ++ [c])) in *.
        rewrite IH. by rewrite <- !app_assoc.
    + by destruct q.
    + by destruct q.
Qed.

(** Opening with truncation and then writing leaves exactly the bytes
    written, at a path that resolves to them. *)
Lemma OpenFileTrunc_Write fs p fs1 b :
  os.OpenFileTrunc fs p = inr fs1 →
  fs1 = <[p := os.File []]> fs ∧
  os.Write fs1 p b = <[p := os.File b]> fs ∧
  os.Stat (<[p := os.File b]> fs) p = inr (os.File b).
Proof.
  unfold os.OpenFileTrunc, os.Stat.
  destruct (os.hasNUL p) eqn:Hnul; [done|].
  destruct p as [|c0 p0] eqn:Hp; [done|]. rewrite <- Hp in *.
  destruct (os.walk fs [] (removelast p)) as [e|[|b0]] eqn:Hpar; try done.
  intros Hfs1.
  assert (fs1 = <[p := os.File []]> fs) as ->.
  { destruct (fs !! p) as [[|b1]|]; by simplify_eq. }
  split; [done|]. split.
  - unfold os.Write. rewrite lookup_insert_eq. simpl. by rewrite insert_insert_eq.
  - assert (p ≠ []) as Hne by (by rewrite Hp).
    rewrite (app_removelast_last "" Hne) at 2.
    rewrite walk_snoc, walk_insert_short, Hpar.
    + simpl. rewrite <- (app_removelast_last "" Hne). by rewrite lookup_insert_eq.
    + simpl. rewrite (app_removelast_last "" Hne) at 2.
      rewrite length_app. simpl. lia.
Qed.

Lemma elem_of_Readdir fs dir name n :
  (name, n) ∈ os.Readdir fs dir ↔ fs !! (dir ++ [name]) = Some n.
Proof.
  unfold os.Readdir. rewrite list_elem_of_omap. split.
  - intros ([p n'] & Hin & Hf). apply elem_of_map_to_list in Hin.
    destruct (reverse p) as [|name' rdir] eqn:Hrev; [done|].
    case_decide as Hdir; [|done]. simplify_eq.
    assert (p = reverse rdir ++ [name]) as ->; [|done].
    rewrite <- (reverse_involutive p), Hrev. by rewrite reverse_cons.
  - intros Hl. exists (dir ++ [name], n). split.
    + by apply elem_of_map_to_list.
    + rewrite reverse_app. simpl. rewrite reverse_involutive.
      by rewrite decide_True.
Qed.



End FileSystemFacts.
(** ** Regular expressions: what is matched is a word of the language *)

Section RegexpSound.
Import regexp.










End RegexpSound.

(** ** Names the pattern of [ListCollections] has a match in *)

Section LooseNames.




End LooseNames.

(** ** The engine, case by case *)

Section EngineFacts.
Context `{codec : gob.Codec}.
Implicit Types (w : Engine.World) (c k v : string) (d : Collection).

Lemma WriteKey_spec w c k v :
  Engine.WriteKey c k v w =
    match membershipOf w c with
    | Hot d | ColdOnly d =>
        (withCollections w (<[c := <[k := v]> d]> (hotOf w)), Ok tt)
    | Absent =>
        if Engine.autoCreateCollection (Engine.engine w)
        then (withCollections w (<[c := {[k := v]}]> (hotOf w)), Ok tt)
        else (w, Err (errorString
               ("Unable to find a collection to load into hot storage with id ["
                  +:+ c +:+ "].")))
    | Unreadable e => (w, Err e)
    end.
Proof.
  destruct w as [fs [svc [m] auto]]. unfold_engine. simpl.
  destruct (m !! c) as [d|] eqn:Hm; simpl.
  { by rewrite Hm. }
  destruct (ColdStorageService.CollectionExists svc fs c) as [[|]|e]; simpl; [| |done].
  - destruct (ColdStorageService.ReadFromDiskForId svc fs c) as [d|e]; simpl; [|done].
    by rewrite lookup_insert_eq, insert_insert_eq.
  - destruct auto; simpl; [|done].
    rewrite ?Hm; simpl. by rewrite lookup_insert_eq, insert_insert_eq, insert_empty.
Qed.

Lemma ReadKey_spec w c k :
  Engine.ReadKey c k w =
    match membershipOf w c with
    | Hot d => (w, HotStorageService.ReadKey (Engine.hot (Engine.engine w)) c k)
    | ColdOnly d =>
        let w' := withCollections w (<[c := d]> (hotOf w)) in
        (w', HotStorageService.ReadKey (Engine.hot (Engine.engine w')) c k)
    | Absent =>
        (w, Err (errorString ("No collection found for collection id [" +:+ c
                                +:+ "] in hot or cold storage")))
    | Unreadable e => (w, Err e)
    end.
Proof.
  destruct w as [fs [svc [m] auto]]. unfold_engine. simpl.
  destruct (m !! c) as [d|] eqn:Hm; simpl.
  { by destruct (HotStorageService.ReadKey _ c k). }
  destruct (ColdStorageService.CollectionExists svc fs c) as [[|]|e]; simpl; [|done|done].
  destruct (ColdStorageService.ReadFromDiskForId svc fs c) as [d|e]; simpl; [|done].
  by destruct (HotStorageService.ReadKey _ c k).
Qed.

Lemma FlushCollection_spec w c :
  Engine.FlushCollection c w =
    match hotOf w !! c with
    | None =>
        (w, Err (errorString ("No collection found for collection id [" +:+ c
                                +:+ "] in hot or cold storage")))
    | Some d =>
        match ColdStorageService.FlushToDisk
                (Engine.cold (Engine.engine w)) (Engine.disk w) c d with
        | (fs', Some e) => (Engine.withDisk w fs', Err e)
        | (fs', None) =>
            (withCollections (Engine.withDisk w fs') (delete c (hotOf w)), Ok tt)
        end
    end.
Proof.
  destruct w as [fs [svc [m] auto]]. unfold_engine. simpl.
  destruct (m !! c) as [d|] eqn:Hm; simpl; [|done].
  rewrite Hm. simpl.
  destruct (ColdStorageService.FlushToDisk svc fs c d) as [fs' [e|]]; simpl.
  - done.
  - by rewrite Hm.
Qed.

Lemma HotReadKey_found (m : gmap string Collection) c k d v :
  m !! c = Some d → d !! k = Some v →
  HotStorageService.ReadKey {| HotStorageService.collections := m |} c k = Ok v.
Proof. intros Hc Hk. unfold HotStorageService.ReadKey. simpl. by rewrite Hc, Hk. Qed.

(** A failed [FlushToDisk] has not touched the file system; a
    successful one leaves the encoding at the path of the collection,
    where [Stat] finds a regular file. *)
Lemma FlushToDisk_spec (svc : ColdStorageService.t) (fs : os.FS) c d fs' r :
  ColdStorageService.FlushToDisk svc fs c d = (fs', r) →
  let p := ColdStorageService.dataFilePath svc c in
  match r with
  | Some _ => fs' = fs
  | None =>
      fs' = <[p := os.File (gob.Encode d)]> fs ∧
      os.Stat fs' p = inr (os.File (gob.Encode d)) ∧
      ColdStorageService.FlushToDiskTrace svc fs c d = [<[p := os.File []]> fs; fs']
  end.
Proof.
  unfold ColdStorageService.FlushToDisk, ColdStorageService.FlushToDiskTrace.
  destruct (os.OpenFileTrunc fs _) as [e|fs1] eqn:Hopen; intros [= <- <-]; simpl; [done|].
  destruct (OpenFileTrunc_Write _ _ _ (gob.Encode d) Hopen) as (-> & -> & HS).
  done.
Qed.

End EngineFacts.

(** ** The codec of [bitcodec] reads back what it writes *)

Lemma undigits_digits p : bitcodec.undigits (bitcodec.digits p) = Some p.
Proof. induction p as [p IH|p IH|]; simpl; by rewrite ?IH. Qed.

#[global] Instance bitcodec_reads_back : gob.RoundTrip bitcodec.codec.
Proof.
  intros m. simpl. unfold bitcodec.Decode, bitcodec.Encode.
  rewrite undigits_digits. simpl. apply decode_encode.
Qed.

(** ** Claims *)

Section Claims.
Context `{codec : gob.Codec}.
Implicit Types (w : Engine.World) (c k v : string) (d : Collection).

Lemma membership_hot w c d :
  hotOf w !! c = Some d → membershipOf w c = Hot d.
Proof. unfold membershipOf, hotOf. by intros ->. Qed.

Lemma hotOf_withCollections w m : hotOf (withCollections w m) = m.
Proof. done. Qed.

Lemma disk_withCollections w m : Engine.disk (withCollections w m) = Engine.disk w.
Proof. done. Qed.



(** C2. Flush contract: when [c] is not hot, [FlushCollection] fails
    with the "No collection found" error and leaves both tiers as they
    were; when [c] is hot, [FlushToDisk] is called first with the
    current contents of [c]: if it fails, its error is returned and
    [c] stays hot with the same contents; if it succeeds, the file of
    [c] holds the encoding of those contents and only then is [c]
    removed from the hot store. *)
Theorem flush_contract w c :
  (hotOf w !! c = None →
     Engine.FlushCollection c w =
       (w, Err (errorString ("No collection found for collection id [" +:+ c
                               +:+ "] in hot or cold storage"))))
  ∧ (∀ d fs' r,
       hotOf w !! c = Some d →
       ColdStorageService.FlushToDisk
         (Engine.cold (Engine.engine w)) (Engine.disk w) c d = (fs', r) →
       match r with
       | Some e =>
           Engine.FlushCollection c w = (Engine.withDisk w fs', Err e) ∧
           hotOf (Engine.withDisk w fs') = hotOf w ∧
           hotOf (Engine.withDisk w fs') !! c = Some d
       | None =>
           Engine.FlushCollection c w =
             (withCollections (Engine.withDisk w fs') (delete c (hotOf w)), Ok tt)
           ∧ fs' = <[ColdStorageService.dataFilePath (Engine.cold (Engine.engine w)) c
                       := os.File (gob.Encode d)]> (Engine.disk w)
       end).
Proof.
  split.
  - intros Hc. by rewrite FlushCollection_spec, Hc.
  - intros d fs' r Hc Hflush. rewrite FlushCollection_spec, Hc, Hflush.
    pose proof (FlushToDisk_spec _ _ _ _ _ _ Hflush) as Hspec. simpl in Hspec.
    destruct r as [e|].
    + done.
    + by destruct Hspec as (-> & _ & _).
Qed.

Lemma membership_flushed `{!gob.RoundTrip codec} w c d fs' :
  ColdStorageService.FlushToDisk
    (Engine.cold (Engine.engine w)) (Engine.disk w) c d = (fs', None) →
  membershipOf (withCollections (Engine.withDisk w fs') (delete c (hotOf w))) c
  = ColdOnly d.
Proof.
  intros Hflush. apply FlushToDisk_spec in Hflush as (_ & HS & _).
  destruct w as [fs [svc [m] auto]].
  unfold membershipOf, ColdStorageService.CollectionExists,
    ColdStorageService.ReadFromDiskForId, os.OpenFileRdonly, hotOf in *.
  cbn [Engine.disk Engine.engine Engine.cold Engine.hot withCollections
         Engine.withDisk Engine.withHot HotStorageService.collections] in *.
  cbv zeta. rewrite lookup_delete_eq, HS. by rewrite gob.decode_encode.
Qed.

(** C3. Tier transparency: after a successful [FlushCollection(c)] of a
    hot collection, [IsHot(c)] is false, [CollectionExists(c)] is
    true, and [ReadKey(c,k)] loads [c] back from the cold tier and
    returns the value [k] had when [c] was flushed; the collection
    loaded is the collection flushed. *)
Theorem tier_transparency `{!gob.RoundTrip codec} w c d w' :
  hotOf w !! c = Some d →
  Engine.FlushCollection c w = (w', Ok tt) →
  Engine.IsHot c w' = (w', Ok false) ∧
  Engine.CollectionExists c w' = (w', Ok true) ∧
  ∀ k v, d !! k = Some v →
    ∃ w'', Engine.ReadKey c k w' = (w'', Ok v) ∧ hotOf w'' !! c = Some d.
Proof.
  intros Hc. rewrite FlushCollection_spec, Hc.
  destruct (ColdStorageService.FlushToDisk _ _ c d) as [fs' [e|]] eqn:Hflush; [done|].
  intros [= <-].
  pose proof (membership_flushed _ _ _ _ Hflush) as Hmem.
  pose proof (FlushToDisk_spec _ _ _ _ _ _ Hflush) as (_ & HS & _).
  assert (Engine.CollectionExists c
            (withCollections (Engine.withDisk w fs') (delete c (hotOf w)))
          = (withCollections (Engine.withDisk w fs') (delete c (hotOf w)), Ok true))
    as Hexists.
  { unfold Engine.CollectionExists, Engine.bind, Engine.hot_CollectionExists,
      Engine.cold_CollectionExists, HotStorageService.CollectionExists,
      ColdStorageService.CollectionExists, Engine.ret.
    destruct w as [fs [svc [m] auto]]. unfold hotOf in *.
    cbn [Engine.disk Engine.engine Engine.cold Engine.hot withCollections
           Engine.withDisk Engine.withHot HotStorageService.collections] in *.
    rewrite lookup_delete_eq.
    cbn [Engine.disk Engine.engine Engine.cold Engine.hot withCollections
           Engine.withDisk Engine.withHot HotStorageService.collections].
    cbv zeta. by rewrite HS. }
  split; [|split; [done|]].
  - unfold Engine.IsHot, Engine.bind. rewrite Hexists.
    unfold Engine.hot_CollectionExists, HotStorageService.CollectionExists.
    simpl. by rewrite lookup_delete_eq.
  - intros k v Hk. rewrite ReadKey_spec, Hmem. eexists. split.
    + simpl. by erewrite HotReadKey_found; [|apply lookup_insert_eq|].
    + apply lookup_insert_eq.
Qed.

(** C4. Auto-create gating: for [c] absent from both tiers,
    [WriteKey(c,k,v)] without auto-create fails with the "Unable to
    find a collection" error and leaves both tiers as they were; with
    auto-create it succeeds and leaves [c] hot, holding exactly [k]
    mapped to [v], the file system untouched. *)
Theorem auto_create_gating w c k v :
  membershipOf w c = Absent →
  (Engine.autoCreateCollection (Engine.engine w) = false →
     Engine.WriteKey c k v w =
       (w, Err (errorString
              ("Unable to find a collection to load into hot storage with id ["
                 +:+ c +:+ "]."))))
  ∧ (Engine.autoCreateCollection (Engine.engine w) = true →
     ∃ w', Engine.WriteKey c k v w = (w', Ok tt) ∧
           hotOf w' = <[c := {[k := v]}]> (hotOf w) ∧
           hotOf w' !! c = Some {[k := v]} ∧
           Engine.disk w' = Engine.disk w).
Proof.
  intros Habs. rewrite WriteKey_spec, Habs. split; intros ->; [done|].
  eexists. split; [done|]. split; [done|]. split; [|done].
  apply lookup_insert_eq.
Qed.

(** C5. Reads never auto-create: for [c] absent from both tiers,
    [ReadKey(c,k)] fails with the "No collection found" error and
    leaves both tiers as they were, whatever the auto-create flag;
    for [c] that is cold only, [ReadKey] first stores the collection
    read from disk in the hot store and then answers from the hot
    copy. *)
Theorem reads_never_create w c k :
  (membershipOf w c = Absent →
     ∀ flag,
       Engine.ReadKey c k (withAutoCreate w flag) =
         (withAutoCreate w flag,
          Err (errorString ("No collection found for collection id [" +:+ c
                              +:+ "] in hot or cold storage"))))
  ∧ (∀ d, membershipOf w c = ColdOnly d →
       let w' := withCollections w (<[c := d]> (hotOf w)) in
       Engine.ReadKey c k w =
         (w', HotStorageService.ReadKey (Engine.hot (Engine.engine w')) c k)
       ∧ hotOf w' !! c = Some d
       ∧ ∀ v, d !! k = Some v → Engine.ReadKey c k w = (w', Ok v)).
Proof.
  split.
  - intros Habs flag. rewrite ReadKey_spec.
    assert (membershipOf (withAutoCreate w flag) c = membershipOf w c) as -> by done.
    by rewrite Habs.
  - intros d Hcold w'. rewrite ReadKey_spec, Hcold. fold w'.
    split; [done|]. split; [apply lookup_insert_eq|].
    intros v Hk. f_equal. subst w'. simpl.
    by erewrite HotReadKey_found; [|apply lookup_insert_eq|].
Qed.

(** C10. Write frame: a successful [WriteKey(c,k,v)] leaves the file
    system as it was, leaves every hot collection other than [c] as
    it was, and leaves [c] hot with [k] mapped to [v] and every other
    key mapped as in the contents [c] had before, read through the
    tiers. *)
Theorem write_frame w c k v w' :
  Engine.WriteKey c k v w = (w', Ok tt) →
  Engine.disk w' = Engine.disk w ∧
  (∀ c', c' ≠ c → hotOf w' !! c' = hotOf w !! c') ∧
  ∃ d', hotOf w' !! c = Some d' ∧ d' !! k = Some v ∧
        ∀ k', k' ≠ k → d' !! k' = contentsOf w c ≫= (.!! k').
Proof.
  rewrite WriteKey_spec. unfold contentsOf.
  destruct (membershipOf w c) as [d|d| |e]; [| | |done].
  3: destruct (Engine.autoCreateCollection _); [|done].
  all: intros [= <-]; (split; [done|]); split;
    [ intros c' Hne; rewrite hotOf_withCollections; by apply lookup_insert_ne
    | eexists; rewrite hotOf_withCollections;
      (split; [apply lookup_insert_eq|]); split;
      [ first [apply lookup_insert_eq | apply lookup_singleton_eq]
      | intros k' Hne; simpl;
        first [ by apply lookup_insert_ne | by apply lookup_singleton_ne ] ] ].
Qed.

Lemma WriteKeys_hot w c d writes :
  hotOf w !! c = Some d →
  WriteKeys c writes w =
    (withCollections w (<[c := foldl (λ d kv, <[kv.1 := kv.2]> d) d writes]> (hotOf w)),
     Ok tt).
Proof.
  revert w d. induction writes as [|[k v] writes IH]; intros w d Hc.
  - simpl. unfold Engine.ret. f_equal.
    destruct w as [fs [svc [m] auto]]. unfold withCollections, Engine.withHot, hotOf in *.
    simpl in *. by rewrite insert_id.
  - simpl. unfold Engine.bind.
    rewrite WriteKey_spec, (membership_hot _ _ _ Hc).
    rewrite (IH _ (<[k := v]> d)) by apply lookup_insert_eq.
    f_equal. rewrite hotOf_withCollections, insert_insert_eq. done.
Qed.

(** C6 (as the code has it). The steps of [LoadCollectionIfNotPresent]
    are not one atomic unit: the source takes no lock.  When the calls
    do not overlap, each returning before the next is made, any
    positive number of [WriteKey] calls on an absent [c], with
    auto-create on, all succeed and leave one hot collection for [c]
    that holds all the writes, the rest of the registry and the file
    system untouched. *)
Theorem first_touch_sequential w c writes :
  membershipOf w c = Absent →
  Engine.autoCreateCollection (Engine.engine w) = true →
  writes ≠ [] →
  WriteKeys c writes w =
    (withCollections w (<[c := written writes]> (hotOf w)), Ok tt).
Proof.
  intros Habs Hauto Hne. destruct writes as [|[k v] writes]; [done|].
  simpl. unfold Engine.bind. rewrite WriteKey_spec, Habs, Hauto.
  rewrite (WriteKeys_hot _ _ {[k := v]}) by apply lookup_insert_eq.
  f_equal. rewrite hotOf_withCollections, insert_insert_eq.
  unfold written. simpl. by rewrite insert_empty.
Qed.

(** C7 (as the code has it). [FlushToDisk] opens the backing file of
    [id] itself with truncation and then writes the encoding into it:
    when it succeeds the file system goes through two states, first
    the backing file empty, then the backing file holding exactly the
    encoding of the collection, and differs from the state before at
    that one path only. *)
Theorem flush_in_place (svc : ColdStorageService.t) (fs : os.FS) c d fs' :
  ColdStorageService.FlushToDisk svc fs c d = (fs', None) →
  let p := ColdStorageService.dataFilePath svc c in
  ColdStorageService.FlushToDiskTrace svc fs c d = [<[p := os.File []]> fs; fs'] ∧
  fs' = <[p := os.File (gob.Encode d)]> fs ∧
  ∀ q, q ≠ p → fs' !! q = fs !! q.
Proof.
  intros Hflush p. apply FlushToDisk_spec in Hflush as (-> & _ & Htrace).
  split; [done|]. split; [done|].
  intros q Hq. by apply lookup_insert_ne.
Qed.

End Claims.


(** ** The listing of the cold tier *)

Section Listing.
Implicit Types (svc : ColdStorageService.t) (fs : os.FS) (c name : string).



Lemma collectionOfChild_data_file c b :
  alnumId c = true →
  ColdStorageService.collectionOfChild (c +:+ ".tsdata", os.File b) = Some c.
Proof.
  intros Hc. simpl. rewrite (MatchString_data_file _ Hc).
  apply alnumId_chars in Hc as [_ Hc]. by rewrite SplitFirst_data_file.
Qed.





End Listing.

(** ** The errors of [HotStorageService.ReadKey] *)

(** C9 (as the code has it).  Both failures of [ReadKey] are made by
    [errors.New] and so are values of one dynamic type; they differ in
    their text, which names the collection when the collection is not
    hot and names the key and the collection when the key is missing,
    and the two texts are never equal. *)
Theorem read_key_errors (svc : HotStorageService.t) (id key id' key' : string)
    (d : Collection) :
  HotStorageService.collections svc !! id = None →
  HotStorageService.collections svc !! id' = Some d →
  d !! key' = None →
  ∃ s1 s2,
    HotStorageService.ReadKey svc id key = Err (errorString s1) ∧
    HotStorageService.ReadKey svc id' key' = Err (errorString s2) ∧
    s1 = "No collection found for collection id [" +:+ id +:+ "] in hot storage." ∧
    s2 = "No value found for key [" +:+ key' +:+ "] in hot collection [" +:+ id' +:+ "]." ∧
    s1 ≠ s2.
Proof.
  intros Hid Hid' Hkey. unfold HotStorageService.ReadKey.
  rewrite Hid, Hid', Hkey. do 2 eexists.
  repeat (split; [reflexivity|]).
  simpl. discriminate.
Qed.

(** ** Calls that overlap *)

Lemma stepAt_single `{codec : gob.Codec} (w : Engine.World) (c : Concurrent.call) :
  Concurrent.stepAt 0 (w, [c]) =
    ((Concurrent.step c w).1, [(Concurrent.step c w).2]).
Proof. unfold Concurrent.stepAt. simpl. by destruct (Concurrent.step c w). Qed.

(** A call that runs alone goes through the steps of [Engine.WriteKey]:
    it leaves the same world and returns the same error. *)
Lemma run_alone `{codec : gob.Codec} (w : Engine.World) (c k v : string) :
  Concurrent.run Concurrent.alone (w, [Concurrent.WriteKey c k v]) =
    let '(w', r) := Engine.WriteKey c k v w in
    (w', [Concurrent.goto (Concurrent.WriteKey c k v)
            (Concurrent.Returned (match r with Ok _ => None | Err e => Some e end))]).
Proof.
  rewrite WriteKey_spec. destruct w as [fs [svc [m] auto]].
  unfold membershipOf, Concurrent.run, Concurrent.alone, Concurrent.WriteKey.
  cbn [replicate foldl Engine.disk Engine.engine Engine.cold Engine.hot
         HotStorageService.collections].
  one_step stepAt_single. unfold HotStorageService.CollectionExists at 1 2.
  cbn [HotStorageService.collections].
  destruct (m !! c) as [d|] eqn:Hm.
  - cbn [fst snd]. one_step stepAt_single. unfold HotStorageService.WriteKey.
    cbn [HotStorageService.collections]. rewrite Hm. cbn [fst snd].
    repeat one_step stepAt_single. done.
  - cbn [fst snd]. one_step stepAt_single.
    destruct (ColdStorageService.CollectionExists svc fs c) as [[|]|e].
    + cbn [fst snd]. one_step stepAt_single.
      destruct (ColdStorageService.ReadFromDiskForId svc fs c) as [d|e].
      * cbn [fst snd]. one_step stepAt_single. one_step stepAt_single.
        unfold HotStorageService.WriteKey.
        cbn [HotStorageService.collections]. rewrite lookup_insert_eq.
        cbn [fst snd]. one_step stepAt_single. rewrite insert_insert_eq. done.
      * cbn [fst snd]. repeat one_step stepAt_single. done.
    + destruct auto.
      * cbn [fst snd]. one_step stepAt_single.
        unfold HotStorageService.CollectionExists.
        cbn [HotStorageService.collections]. rewrite Hm.
        cbn [fst snd]. one_step stepAt_single. one_step stepAt_single.
        unfold HotStorageService.WriteKey.
        cbn [HotStorageService.collections]. rewrite lookup_insert_eq.
        cbn [fst snd]. one_step stepAt_single. rewrite insert_insert_eq, insert_empty. done.
      * cbn [fst snd]. repeat one_step stepAt_single. done.
    + cbn [fst snd]. repeat one_step stepAt_single. done.
Qed.

(** ** The claims at the example worlds *)

Lemma flush_contract_witness :
  (hotOf example.fresh !! "c" = None ∧
   Engine.FlushCollection "c" example.fresh =
     (example.fresh,
      Err (errorString "No collection found for collection id [c] in hot or cold storage")))
  ∧ (hotOf example.blocked !! "c" = Some example.kv ∧
     Engine.FlushCollection "c" example.blocked =
       (Engine.withDisk example.blocked example.blockedDisk,
        Err (PathError "open" "/data/c.tsdata" EISDIR)) ∧
     hotOf (Engine.withDisk example.blocked example.blockedDisk) = hotOf example.blocked ∧
     hotOf (Engine.withDisk example.blocked example.blockedDisk) !! "c" = Some example.kv)
  ∧ (hotOf example.hotOnly !! "c" = Some example.kv ∧
     Engine.FlushCollection "c" example.hotOnly = (example.coldOnly, Ok tt)).
Proof.
  split; [|split].
  - split; [vm_compute; reflexivity|].
    apply (proj1 (flush_contract example.fresh "c")). vm_compute; reflexivity.
  - split; [vm_compute; reflexivity|].
    apply (proj2 (flush_contract example.blocked "c") example.kv example.blockedDisk
             (Some (PathError "open" "/data/c.tsdata" EISDIR)));
      vm_compute; reflexivity.
  - split; [vm_compute; reflexivity|].
    pose proof (proj2 (flush_contract example.hotOnly "c") example.kv example.coldDisk None)
      as Hflush.
    simpl in Hflush. destruct Hflush as [Hflush _]; [vm_compute; reflexivity ..|].
    exact Hflush.
Defined.

Lemma tier_transparency_witness :
  (hotOf example.hotOnly !! "c" = Some example.kv ∧
   Engine.FlushCollection "c" example.hotOnly = (example.coldOnly, Ok tt))
  ∧ Engine.IsHot "c" example.coldOnly = (example.coldOnly, Ok false)
  ∧ Engine.CollectionExists "c" example.coldOnly = (example.coldOnly, Ok true)
  ∧ ∀ k v, example.kv !! k = Some v →
      ∃ w'', Engine.ReadKey "c" k example.coldOnly = (w'', Ok v) ∧
             hotOf w'' !! "c" = Some example.kv.
Proof.
  split; [split; vm_compute; reflexivity|].
  apply (tier_transparency example.hotOnly "c" example.kv example.coldOnly);
    vm_compute; reflexivity.
Defined.

Lemma auto_create_gating_witness :
  (membershipOf example.strict "c" = Absent ∧
   Engine.autoCreateCollection (Engine.engine example.strict) = false ∧
   Engine.WriteKey "c" "k" "v" example.strict =
     (example.strict,
      Err (errorString
             "Unable to find a collection to load into hot storage with id [c].")))
  ∧ (membershipOf example.fresh "c" = Absent ∧
     Engine.autoCreateCollection (Engine.engine example.fresh) = true ∧
     ∃ w', Engine.WriteKey "c" "k" "v" example.fresh = (w', Ok tt) ∧
           hotOf w' = <["c" := {["k" := "v"]}]> (hotOf example.fresh) ∧
           hotOf w' !! "c" = Some {["k" := "v"]} ∧
           Engine.disk w' = Engine.disk example.fresh).
Proof.
  split; (split; [vm_compute; reflexivity|]); (split; [vm_compute; reflexivity|]).
  - apply (proj1 (auto_create_gating example.strict "c" "k" "v" eq_refl)).
    vm_compute; reflexivity.
  - apply (proj2 (auto_create_gating example.fresh "c" "k" "v" eq_refl)).
    vm_compute; reflexivity.
Defined.

Lemma reads_never_create_witness :
  (membershipOf example.fresh "c" = Absent ∧
   ∀ flag,
     Engine.ReadKey "c" "k" (withAutoCreate example.fresh flag) =
       (withAutoCreate example.fresh flag,
        Err (errorString "No collection found for collection id [c] in hot or cold storage")))
  ∧ (membershipOf example.coldOnly "c" = ColdOnly example.kv ∧
     Engine.ReadKey "c" "k" example.coldOnly =
       (withCollections example.coldOnly {["c" := example.kv]}, Ok "v")).
Proof.
  split; (split; [vm_compute; reflexivity|]).
  - apply (proj1 (reads_never_create example.fresh "c" "k")). vm_compute; reflexivity.
  - destruct (proj2 (reads_never_create example.coldOnly "c" "k") example.kv)
      as (_ & _ & Hread); [vm_compute; reflexivity|].
    apply Hread. vm_compute; reflexivity.
Defined.

Lemma write_frame_witness :
  Engine.WriteKey "c" "k2" "v2" example.coldOnly =
    (withCollections example.coldOnly {["c" := <["k2" := "v2"]> example.kv]}, Ok tt)
  ∧ ∃ d', hotOf (withCollections example.coldOnly {["c" := <["k2" := "v2"]> example.kv]})
            !! "c" = Some d' ∧
          d' !! "k2" = Some "v2" ∧
          ∀ k', k' ≠ "k2" → d' !! k' = contentsOf example.coldOnly "c" ≫= (.!! k').
Proof.
  split; [vm_compute; reflexivity|].
  apply (write_frame example.coldOnly "c" "k2" "v2"). vm_compute; reflexivity.
Defined.

Lemma first_touch_sequential_witness :
  (membershipOf example.fresh "c" = Absent ∧
   Engine.autoCreateCollection (Engine.engine example.fresh) = true ∧
   [("k1", "v1"); ("k2", "v2")] ≠ @nil (string * string))
  ∧ WriteKeys "c" [("k1", "v1"); ("k2", "v2")] example.fresh =
      (withCollections example.fresh
         (<["c" := written [("k1", "v1"); ("k2", "v2")]]> (hotOf example.fresh)),
       Ok tt).
Proof.
  split; [split; [|split]; [vm_compute; reflexivity ..|discriminate]|].
  apply (first_touch_sequential example.fresh "c" [("k1", "v1"); ("k2", "v2")]);
    [vm_compute; reflexivity ..|discriminate].
Defined.

Lemma flush_in_place_witness :
  ColdStorageService.FlushToDisk example.svc example.emptyDisk "c" example.kv
    = (example.coldDisk, None)
  ∧ ColdStorageService.FlushToDiskTrace example.svc example.emptyDisk "c" example.kv
    = [<[["data"; "c.tsdata"] := os.File []]> example.emptyDisk; example.coldDisk]
  ∧ example.coldDisk
    = <[["data"; "c.tsdata"] := os.File (gob.Encode example.kv)]> example.emptyDisk
  ∧ ∀ q, q ≠ ["data"; "c.tsdata"] → example.coldDisk !! q = example.emptyDisk !! q.
Proof.
  split; [vm_compute; reflexivity|].
  apply (flush_in_place example.svc example.emptyDisk "c" example.kv example.coldDisk).
  vm_compute; reflexivity.
Defined.


Lemma read_key_errors_witness :
  (hotOf example.hotOnly !! "d" = None ∧
   hotOf example.hotOnly !! "c" = Some example.kv ∧
   example.kv !! "x" = None)
  ∧ ∃ s1 s2,
      HotStorageService.ReadKey (Engine.hot (Engine.engine example.hotOnly)) "d" "k"
        = Err (errorString s1) ∧
      HotStorageService.ReadKey (Engine.hot (Engine.engine example.hotOnly)) "c" "x"
        = Err (errorString s2) ∧
      s1 = "No collection found for collection id [d] in hot storage." ∧
      s2 = "No value found for key [x] in hot collection [c]." ∧
      s1 ≠ s2.
Proof.
  split; [repeat split; vm_compute; reflexivity|].
  apply (read_key_errors (Engine.hot (Engine.engine example.hotOnly))
           "d" "k" "c" "x" example.kv); vm_compute; reflexivity.
Defined.

(** ** Where the claims as stated fail *)

(** C6: two overlapping first touches of the absent collection [c], with
    auto-create on.  Under one schedule the second call returns the
    "already exists" error of [CreateCollection]; under another both
    return without error and the write of the first is gone. *)
Lemma first_touch_counterexample :
  membershipOf example.fresh "c" = Absent ∧
  Engine.autoCreateCollection (Engine.engine example.fresh) = true ∧
  ¬ Concurrent.firstTouchOk example.fresh example.twoCalls "c" example.duplicateCreate ∧
  ¬ Concurrent.firstTouchOk example.fresh example.twoCalls "c" example.lostUpdate.
Proof.
  split; [vm_compute; reflexivity|]. split; [reflexivity|]. split.
  - unfold Concurrent.firstTouchOk.
    assert (Concurrent.run example.duplicateCreate (example.fresh, example.twoCalls)
            = (withCollections example.fresh {["c" := {["k1" := "v1"]}]},
               [Concurrent.goto (Concurrent.WriteKey "c" "k1" "v1")
                  (Concurrent.Returned None);
                Concurrent.goto (Concurrent.WriteKey "c" "k2" "v2")
                  (Concurrent.Returned
                     (Some (errorString
                        "Collection already exists with id [c] in hot storage.")))]))
      as -> by (vm_compute; reflexivity).
    intros Hok. destruct Hok as [Hall _].
    { repeat constructor; eexists; reflexivity. }
    apply Forall_cons in Hall as [_ Hall].
    apply Forall_cons in Hall as [Hbad _]. discriminate Hbad.
  - unfold Concurrent.firstTouchOk.
    assert (Concurrent.run example.lostUpdate (example.fresh, example.twoCalls)
            = (withCollections example.fresh {["c" := {["k2" := "v2"]}]},
               [Concurrent.goto (Concurrent.WriteKey "c" "k1" "v1")
                  (Concurrent.Returned None);
                Concurrent.goto (Concurrent.WriteKey "c" "k2" "v2")
                  (Concurrent.Returned None)]))
      as -> by (vm_compute; reflexivity).
    intros Hok. destruct Hok as [_ (data & Hdata & Hkeys)].
    { repeat constructor; eexists; reflexivity. }
    assert (data = {["k2" := "v2"]}) as ->.
    { vm_compute in Hdata. by injection Hdata as <-. }
    apply Forall_cons in Hkeys as [[x Hx] _]. vm_compute in Hx. discriminate Hx.
Qed.

(** C7: the collection [c] is persisted and is flushed again with new
    contents; after [FlushToDisk] has opened the file, the file holds
    neither the old encoding nor the new one: it is empty. *)
Lemma atomic_visible_counterexample :
  ¬ atomicVisible example.svc example.coldDisk "c" {["k" := "v2"]}.
Proof.
  unfold atomicVisible.
  assert (ColdStorageService.FlushToDiskTrace example.svc example.coldDisk "c"
            {["k" := "v2"]}
          = [<[["data"; "c.tsdata"] := os.File []]> example.coldDisk;
             <[["data"; "c.tsdata"] := os.File (gob.Encode {["k" := "v2"]})]>
               example.coldDisk]) as -> by (vm_compute; reflexivity).
  intros [Hfirst _]%Forall_cons.
  destruct Hfirst as [H|H]; vm_compute in H; discriminate H.
Qed.


(** C9: in a hot store that holds [c] and not [d], reading from [d]
    and reading the missing key [x] of [c] fail with errors of the same
    dynamic type. *)
Lemma read_key_errors_counterexample :
  ¬ kindsDistinct (Engine.hot (Engine.engine example.hotOnly)) "d" "c" "x".
Proof.
  intros Hdistinct.
  apply (Hdistinct
           (errorString "No collection found for collection id [d] in hot storage.")
           (errorString "No value found for key [x] in hot collection [c]."));
    try (vm_compute; reflexivity).
  eexists. vm_compute. reflexivity.
Qed.

(** * Further properties of the code *)

(** ** The hot store *)

Section HotStore.
Implicit Types (svc : HotStorageService.t) (id key value : string).

Lemma hot_list_elem svc id :
  id ∈ HotStorageService.ListCollections svc ↔
  HotStorageService.CollectionExists svc id = true.
Proof.
  unfold HotStorageService.ListCollections, HotStorageService.CollectionExists.
  rewrite list_elem_of_fmap. split.
  - intros ([id' d] & -> & Hin). apply elem_of_map_to_list in Hin.
    simpl. by rewrite Hin.
  - destruct (HotStorageService.collections svc !! id) as [d|] eqn:Hid; [|done].
    intros _. exists (id, d). split; [done|]. by apply elem_of_map_to_list.
Qed.

(** X1. [ListCollections] of the hot store returns every hot id, each
    once, and nothing else; its length is the number of hot
    collections. *)
Theorem hot_list_exact svc :
  NoDup (HotStorageService.ListCollections svc) ∧
  (∀ id, id ∈ HotStorageService.ListCollections svc ↔
         HotStorageService.CollectionExists svc id = true) ∧
  length (HotStorageService.ListCollections svc)
    = size (HotStorageService.collections svc).
Proof.
  split; [apply NoDup_fst_map_to_list|]. split; [apply hot_list_elem|].
  unfold HotStorageService.ListCollections.
  by rewrite length_fmap, length_map_to_list.
Qed.

(** X2. [CreateCollection] on an id that is not hot registers an empty
    collection: the id becomes hot, every key read from it is missing,
    and the other collections are as before.  On a hot id it fails and
    leaves the store, the contents of that collection included, as it
    was. *)
Theorem hot_create svc id :
  (HotStorageService.CollectionExists svc id = false →
     ∃ svc', HotStorageService.CreateCollection svc id = (svc', None) ∧
       HotStorageService.CollectionExists svc' id = true ∧
       (∀ key, HotStorageService.ReadKey svc' id key =
                 Err (errorString ("No value found for key [" +:+ key
                                     +:+ "] in hot collection [" +:+ id +:+ "]."))) ∧
       (∀ id', id' ≠ id →
          HotStorageService.collections svc' !! id' =
          HotStorageService.collections svc !! id'))
  ∧ (HotStorageService.CollectionExists svc id = true →
       HotStorageService.CreateCollection svc id =
         (svc, Some (errorString ("Collection already exists with id [" +:+ id
                                    +:+ "] in hot storage.")))).
Proof.
  unfold HotStorageService.CreateCollection. split; intros ->; [|done].
  eexists. split; [done|].
  unfold HotStorageService.CollectionExists, HotStorageService.ReadKey. simpl.
  rewrite lookup_insert_eq. split; [done|]. split.
  - intros key. by rewrite lookup_empty.
  - intros id' Hne. by apply lookup_insert_ne.
Qed.

(** X3. [DropCollection] removes a hot collection and nothing else, and
    undoes a [CreateCollection] that has just succeeded: the store is
    again what it was.  On an id that is not hot it fails and changes
    nothing. *)
Theorem hot_drop svc id :
  (HotStorageService.CollectionExists svc id = true →
     ∃ svc', HotStorageService.DropCollection svc id = (svc', None) ∧
       HotStorageService.CollectionExists svc' id = false ∧
       (∀ id', id' ≠ id →
          HotStorageService.collections svc' !! id' =
          HotStorageService.collections svc !! id'))
  ∧ (HotStorageService.CollectionExists svc id = false →
       HotStorageService.DropCollection svc id =
         (svc, Some (errorString ("No collection found for collection id [" +:+ id
                                    +:+ "] in hot storage.")))
       ∧ ∀ svc', HotStorageService.CreateCollection svc id = (svc', None) →
                 HotStorageService.DropCollection svc' id = (svc, None)).
Proof.
  unfold HotStorageService.DropCollection, HotStorageService.CreateCollection,
    HotStorageService.CollectionExists.
  destruct svc as [m]. simpl.
  destruct (m !! id) as [d|] eqn:Hid; split; try done.
  - intros _. eexists. split; [done|]. simpl. rewrite lookup_delete_eq.
    split; [done|]. intros id' Hne. by apply lookup_delete_ne.
  - intros _. split; [done|]. intros svc' [= <-]. simpl.
    rewrite lookup_insert_eq. f_equal. f_equal.
    rewrite delete_insert_eq. by apply delete_id.
Qed.

(** X4. [WriteKey] of the hot store succeeds exactly on a hot id; it
    then maps the key to the value, so that [ReadKey] returns it, and
    keeps every other key of the collection and every other
    collection.  On an id that is not hot it fails, changes nothing and
    creates nothing. *)
Theorem hot_write_read svc id key value :
  (HotStorageService.CollectionExists svc id = true →
     ∃ svc', HotStorageService.WriteKey svc id key value = (svc', None) ∧
       HotStorageService.ReadKey svc' id key = Ok value ∧
       (∀ key', key' ≠ key →
          HotStorageService.ReadKey svc' id key' = HotStorageService.ReadKey svc id key') ∧
       (∀ id' key', id' ≠ id →
          HotStorageService.ReadKey svc' id' key' = HotStorageService.ReadKey svc id' key'))
  ∧ (HotStorageService.CollectionExists svc id = false →
       HotStorageService.WriteKey svc id key value =
         (svc, Some (errorString ("No collection found for collection id [" +:+ id
                                    +:+ "] in hot storage.")))).
Proof.
  unfold HotStorageService.WriteKey, HotStorageService.CollectionExists,
    HotStorageService.ReadKey.
  destruct svc as [m]. simpl.
  destruct (m !! id) as [d|] eqn:Hid; split; try done.
  intros _. eexists. split; [done|]. simpl. rewrite lookup_insert_eq.
  split; [by rewrite lookup_insert_eq|]. split.
  - intros key' Hne. by rewrite lookup_insert_ne.
  - intros id' key' Hne. by rewrite lookup_insert_ne.
Qed.

(** X5. Writes to one hot collection: the later write to a key wins,
    and writes to different keys may be made in either order. *)
Theorem hot_write_write svc id key1 key2 value1 value2 :
  HotStorageService.CollectionExists svc id = true →
  let after k v s := (HotStorageService.WriteKey s id k v).1 in
  after key1 value2 (after key1 value1 svc) = after key1 value2 svc ∧
  (key1 ≠ key2 →
     after key2 value2 (after key1 value1 svc) = after key1 value1 (after key2 value2 svc)).
Proof.
  intros Hex after. unfold HotStorageService.CollectionExists in Hex.
  destruct svc as [m]. simpl in Hex.
  destruct (m !! id) as [d|] eqn:Hid; [clear Hex|done].
  assert (∀ k v d', after k v {| HotStorageService.collections := <[id := d']> m |}
                    = {| HotStorageService.collections := <[id := <[k := v]> d']> m |})
    as Hafter.
  { intros k v d'. unfold after, HotStorageService.WriteKey. simpl.
    by rewrite lookup_insert_eq, insert_insert_eq. }
  assert (∀ k v, after k v {| HotStorageService.collections := m |}
                 = {| HotStorageService.collections := <[id := <[k := v]> d]> m |})
    as Hfirst.
  { intros k v. unfold after, HotStorageService.WriteKey. simpl. by rewrite Hid. }
  rewrite !Hfirst, !Hafter. split.
  - by rewrite insert_insert_eq.
  - intros Hne. by rewrite (insert_insert_ne d).
Qed.

End HotStore.

(** ** Paths of data files *)

Section Paths.
Implicit Types (svc : ColdStorageService.t) (id : string) (dir : list string).

Lemma string_length_app s t : String.length (s +:+ t) = String.length s + String.length t.
Proof. induction s as [|a s IH]; simpl; [done|]. by rewrite IH. Qed.

Lemma string_app_assoc s t u : (s +:+ t) +:+ u = s +:+ t +:+ u.
Proof.
  induction s as [|a s IH]; [done|].
  change (String a ((s +:+ t) +:+ u) = String a (s +:+ t +:+ u)). by rewrite IH.
Qed.

Lemma string_app_inj_r s1 s2 t : s1 +:+ t = s2 +:+ t → s1 = s2.
Proof.
  intros Heq. apply (f_equal list_ascii_of_string) in Heq.
  rewrite !list_ascii_of_string_app in Heq. apply app_inv_tail in Heq.
  rewrite <- (string_of_list_ascii_of_string s1), <- (string_of_list_ascii_of_string s2).
  by rewrite Heq.
Qed.

Lemma fields_simple s : simpleId s = true → Strings.fields "/" s = [s].
Proof.
  unfold simpleId. induction s as [|a s IH]; [done|].
  cbn [existsb list_ascii_of_string Strings.fields].
  destruct (Ascii.eqb "/" a) eqn:Ha; [done|]. cbn [orb]. intros Hs.
  rewrite Ascii.eqb_sym, Ha. by rewrite IH.
Qed.

Lemma fields_cons_slash s t :
  simpleId s = true → Strings.fields "/" (s +:+ "/" +:+ t) = s :: Strings.fields "/" t.
Proof.
  unfold simpleId. induction s as [|a s IH]; [done|].
  change (String a s +:+ "/" +:+ t) with (String a (s +:+ "/" +:+ t)).
  cbn [existsb list_ascii_of_string Strings.fields].
  destruct (Ascii.eqb "/" a) eqn:Ha; [done|]. cbn [orb]. intros Hs.
  rewrite Ascii.eqb_sym, Ha. by rewrite IH.
Qed.

Lemma simpleId_data_file id : simpleId (id +:+ ".tsdata") = simpleId id.
Proof.
  unfold simpleId. rewrite list_ascii_of_string_app, existsb_app. simpl.
  by rewrite orb_false_r.
Qed.

Lemma plainElem_data_file id : plainElem (id +:+ ".tsdata") = true.
Proof.
  unfold plainElem. apply negb_true_iff, orb_false_iff. split; [apply orb_false_iff; split|].
  all: apply String.eqb_neq; intros Heq; apply (f_equal String.length) in Heq;
    rewrite string_length_app in Heq; simpl in Heq; lia.
Qed.

Lemma cleanStep_plain stack c :
  plainElem c = true → filepath.cleanStep stack c = stack ++ [c].
Proof.
  unfold plainElem, filepath.cleanStep.
  intros [[H1 H2]%orb_false_iff H3]%negb_true_iff%orb_false_iff.
  by rewrite H1, H2, H3.
Qed.

Lemma foldl_cleanStep_plain stack dir :
  cleanDir dir = true → foldl filepath.cleanStep stack dir = stack ++ dir.
Proof.
  unfold cleanDir. revert stack. induction dir as [|c dir IH]; intros stack; simpl.
  - by rewrite app_nil_r.
  - intros [Hc Hdir]%andb_prop. rewrite (cleanStep_plain _ _ Hc), IH by done.
    by rewrite <- app_assoc.
Qed.

(** What [Clean] returns is made of elements that [Clean] keeps. *)
Lemma cleanDir_Clean elems : cleanDir (filepath.Clean elems) = true.
Proof.
  unfold filepath.Clean.
  assert (∀ stack, cleanDir stack = true →
            cleanDir (foldl filepath.cleanStep stack elems) = true) as Hgen.
  { induction elems as [|c elems IH]; intros stack Hstack; [done|].
    simpl. apply IH. unfold filepath.cleanStep.
    destruct (String.eqb c "" || String.eqb c ".") eqn:H1; [done|].
    destruct (String.eqb c "..") eqn:H2.
    - unfold cleanDir in *. rewrite forallb_forall in *.
      intros x Hx. apply Hstack.
      destruct stack as [|a stack] using rev_ind; [done|].
      rewrite removelast_last in Hx. apply in_app_iff. by left.
    - unfold cleanDir in *. rewrite forallb_app, Hstack. simpl.
      unfold plainElem. by rewrite H1, H2. }
  by apply Hgen.
Qed.

Lemma dataFilePath_simple svc id :
  cleanDir (ColdStorageService.dataDir svc) = true →
  simpleId id = true →
  ColdStorageService.dataFilePath svc id
    = ColdStorageService.dataDir svc ++ [id +:+ ".tsdata"].
Proof.
  intros Hdir Hid. unfold ColdStorageService.dataFilePath, filepath.Join, filepath.Clean.
  rewrite fields_simple by by rewrite simpleId_data_file.
  rewrite foldl_app, (foldl_cleanStep_plain [] _ Hdir). simpl.
  apply cleanStep_plain, plainElem_data_file.
Qed.

(** X6. In a clean data directory the data file of an id without a
    path separator lies directly in the directory under the name
    [<id>.tsdata], and two such ids never share a data file. *)
Theorem simple_id_path svc id :
  cleanDir (ColdStorageService.dataDir svc) = true →
  simpleId id = true →
  ColdStorageService.dataFilePath svc id
    = ColdStorageService.dataDir svc ++ [id +:+ ".tsdata"]
  ∧ ∀ id', simpleId id' = true →
      ColdStorageService.dataFilePath svc id' = ColdStorageService.dataFilePath svc id →
      id' = id.
Proof.
  intros Hdir Hid. split; [by apply dataFilePath_simple|].
  intros id' Hid'. rewrite !dataFilePath_simple by done.
  intros [= Heq]%app_inv_head. by apply string_app_inj_r in Heq.
Qed.

(** X7. The id is not confined to the data directory: with [../] in
    front the data file lies in the parent of the data directory, and
    an id that steps into a directory and back out has the data file of
    the id that remains. *)
Theorem id_path_traversal svc id x :
  cleanDir (ColdStorageService.dataDir svc) = true →
  simpleId id = true →
  ColdStorageService.dataFilePath svc ("../" +:+ id)
    = removelast (ColdStorageService.dataDir svc) ++ [id +:+ ".tsdata"]
  ∧ (simpleId x = true → plainElem x = true →
     ColdStorageService.dataFilePath svc (x +:+ "/../" +:+ id)
       = ColdStorageService.dataFilePath svc id).
Proof.
  intros Hdir Hid. split.
  - unfold ColdStorageService.dataFilePath, filepath.Join, filepath.Clean.
    change (("../" +:+ id) +:+ ".tsdata") with (".." +:+ "/" +:+ (id +:+ ".tsdata")).
    rewrite fields_cons_slash by done.
    rewrite fields_simple by by rewrite simpleId_data_file.
    rewrite foldl_app, (foldl_cleanStep_plain [] _ Hdir). simpl.
    unfold filepath.cleanStep at 2. simpl.
    apply cleanStep_plain, plainElem_data_file.
  - intros Hx Hplain.
    rewrite (dataFilePath_simple svc id Hdir Hid).
    unfold ColdStorageService.dataFilePath, filepath.Join, filepath.Clean.
    rewrite string_app_assoc.
    change (("/../" +:+ id) +:+ ".tsdata")
      with ("/" +:+ (".." +:+ "/" +:+ (id +:+ ".tsdata"))).
    rewrite fields_cons_slash by done.
    rewrite fields_cons_slash by done.
    rewrite fields_simple by by rewrite simpleId_data_file.
    rewrite foldl_app, (foldl_cleanStep_plain [] _ Hdir). simpl.
    rewrite (cleanStep_plain _ x Hplain).
    unfold filepath.cleanStep at 2. simpl. rewrite removelast_last.
    apply cleanStep_plain, plainElem_data_file.
Qed.

End Paths.

(** ** The cold store *)

Section ColdStore.
Context `{codec : gob.Codec}.
Implicit Types (svc : ColdStorageService.t) (fs : os.FS) (id : string) (d : Collection).

(** A path that resolves keeps its node when an entry that is not a
    directory is put or replaced elsewhere. *)
Lemma walk_insert_other fs q m cur rest n :
  fs !! q ≠ Some os.Dir → cur ++ rest ≠ q →
  os.walk fs cur rest = inr n →
  os.walk (<[q := m]> fs) cur rest = inr n.
Proof.
  intros Hq. revert cur. induction rest as [|c rest IH]; intros cur Hne; [done|].
  cbn [os.walk].
  destruct (fs !! (cur ++ [c])) as [x|] eqn:Hc; [|by destruct rest].
  destruct (decide (cur ++ [c] = q)) as [Heq|Hneq].
  - destruct rest as [|c' rest].
    + by exfalso; apply Hne.
    + destruct x as [|b]; [|done]. subst q. by rewrite Hc in Hq.
  - rewrite lookup_insert_ne by done. rewrite Hc.
    destruct rest as [|c' rest]; [done|].
    destruct x as [|b]; [|done].
    apply IH. by rewrite <- app_assoc.
Qed.

Lemma Stat_insert_other fs q m p n :
  fs !! q ≠ Some os.Dir → p ≠ q →
  os.Stat fs p = inr n → os.Stat (<[q := m]> fs) p = inr n.
Proof.
  unfold os.Stat. intros Hq Hne. destruct (os.hasNUL p); [done|].
  by apply walk_insert_other.
Qed.

Lemma OpenFileTrunc_not_Dir fs p fs1 :
  os.OpenFileTrunc fs p = inr fs1 → fs !! p ≠ Some os.Dir.
Proof.
  unfold os.OpenFileTrunc. destruct (os.hasNUL p); [done|].
  destruct p as [|c p']; [done|].
  destruct (os.walk fs [] _) as [e|[|b]]; try done.
  by destruct (fs !! (c :: p')) as [[|b]|].
Qed.

Lemma OpenFileTrunc_again fs p fs1 b :
  os.OpenFileTrunc fs p = inr fs1 →
  os.OpenFileTrunc (<[p := os.File b]> fs) p = inr (<[p := os.File []]> fs).
Proof.
  unfold os.OpenFileTrunc. destruct (os.hasNUL p); [done|].
  destruct p as [|c p'] eqn:Hp; [done|]. rewrite <- Hp in *.
  assert (p ≠ []) as Hne by by rewrite Hp.
  destruct (os.walk fs [] (removelast p)) as [e|[|b0]] eqn:Hpar; try done.
  intros _. rewrite walk_insert_short, Hpar.
  - by rewrite lookup_insert_eq, insert_insert_eq.
  - simpl. rewrite (app_removelast_last "" Hne) at 2. rewrite length_app. simpl. lia.
Qed.

(** X8. [CollectionExists] and [ReadFromDiskForId] agree: a collection
    that can be read exists, a collection that does not exist cannot be
    opened, and an error of the existence check is an error of the
    read as well. *)
Theorem cold_exists_read svc fs id :
  (∀ d, ColdStorageService.ReadFromDiskForId svc fs id = Ok d →
        ColdStorageService.CollectionExists svc fs id = Ok true)
  ∧ (ColdStorageService.CollectionExists svc fs id = Ok false →
       ColdStorageService.ReadFromDiskForId svc fs id =
         Err (PathError "open"
                (filepath.String (ColdStorageService.dataFilePath svc id)) ENOENT))
  ∧ (∀ e, ColdStorageService.CollectionExists svc fs id = Err e →
          ∃ e', ColdStorageService.ReadFromDiskForId svc fs id = Err e').
Proof.
  unfold ColdStorageService.ReadFromDiskForId, ColdStorageService.CollectionExists,
    os.OpenFileRdonly. cbv zeta.
  destruct (os.Stat fs _) as [[]|[|b]]; repeat split; try done; eauto.
Qed.

Lemma FlushToDisk_again svc fs id d1 d2 fs1 :
  ColdStorageService.FlushToDisk svc fs id d1 = (fs1, None) →
  ColdStorageService.FlushToDisk svc fs1 id d2
    = (<[ColdStorageService.dataFilePath svc id := os.File (gob.Encode d2)]> fs, None) ∧
  ColdStorageService.FlushToDisk svc fs id d2
    = (<[ColdStorageService.dataFilePath svc id := os.File (gob.Encode d2)]> fs, None).
Proof.
  unfold ColdStorageService.FlushToDisk. cbv zeta.
  destruct (os.OpenFileTrunc fs _) as [e|fs'] eqn:Hopen; [done|]. intros [= <-].
  destruct (OpenFileTrunc_Write _ _ _ (gob.Encode d1) Hopen) as (-> & Hw1 & _).
  destruct (OpenFileTrunc_Write _ _ _ (gob.Encode d2) Hopen) as (_ & Hw2 & HS).
  rewrite Hw1, Hw2.
  rewrite (OpenFileTrunc_again _ _ _ _ Hopen).
  by rewrite Hw2.
Qed.

(** X9. A flush overwrites: once [FlushToDisk] has succeeded for an id,
    it succeeds again for that id with any contents, leaves the file
    system that flushing those contents at once would have left, and
    [ReadFromDiskForId] returns what was flushed last. *)
Theorem cold_flush_overwrites `{!gob.RoundTrip codec} svc fs id d1 d2 fs1 :
  ColdStorageService.FlushToDisk svc fs id d1 = (fs1, None) →
  ∃ fs2, ColdStorageService.FlushToDisk svc fs1 id d2 = (fs2, None) ∧
         ColdStorageService.FlushToDisk svc fs id d2 = (fs2, None) ∧
         ColdStorageService.ReadFromDiskForId svc fs2 id = Ok d2.
Proof.
  intros Hflush.
  destruct (FlushToDisk_again _ _ _ _ d2 _ Hflush) as [Hagain Hdirect].
  eexists. split; [exact Hagain|]. split; [exact Hdirect|].
  apply FlushToDisk_spec in Hdirect as (_ & HS & _).
  unfold ColdStorageService.ReadFromDiskForId, os.OpenFileRdonly. cbv zeta.
  by rewrite HS, gob.decode_encode.
Qed.

(** X10. A flush touches one data file: what [CollectionExists] and
    [ReadFromDiskForId] return for a readable collection with another
    data file is the same after the flush. *)
Theorem cold_flush_frame svc fs id d fs' id' d' :
  ColdStorageService.FlushToDisk svc fs id d = (fs', None) →
  ColdStorageService.dataFilePath svc id' ≠ ColdStorageService.dataFilePath svc id →
  ColdStorageService.ReadFromDiskForId svc fs id' = Ok d' →
  ColdStorageService.ReadFromDiskForId svc fs' id' = Ok d' ∧
  ColdStorageService.CollectionExists svc fs' id' = Ok true.
Proof.
  unfold ColdStorageService.FlushToDisk, ColdStorageService.ReadFromDiskForId,
    ColdStorageService.CollectionExists, os.OpenFileRdonly. cbv zeta.
  destruct (os.OpenFileTrunc fs _) as [e|fs1] eqn:Hopen; [done|]. intros [= <-] Hne.
  destruct (OpenFileTrunc_Write _ _ _ (gob.Encode d) Hopen) as (_ & -> & _).
  destruct (os.Stat fs (ColdStorageService.dataFilePath svc id')) as [e|[|b]] eqn:HS;
    try done.
  intros Hread.
  rewrite (Stat_insert_other _ _ _ _ _ (OpenFileTrunc_not_Dir _ _ _ Hopen) Hne HS).
  done.
Qed.

(** X11. What has been flushed is listed: after [FlushToDisk] has
    succeeded in a clean data directory for an id of ASCII letters and
    digits, [ListCollections] succeeds and returns that id. *)
Theorem cold_list_after_flush svc fs id d fs' :
  cleanDir (ColdStorageService.dataDir svc) = true →
  alnumId id = true →
  ColdStorageService.FlushToDisk svc fs id d = (fs', None) →
  ∃ ids, ColdStorageService.ListCollections svc fs' = Ok ids ∧ id ∈ ids.
Proof.
  intros Hdir Hid.
  assert (simpleId id = true) as Hsimple.
  { apply alnumId_chars in Hid as [_ Hid]. unfold simpleId.
    apply negb_true_iff.
    destruct (existsb _ _) eqn:Hex; [|done].
    apply existsb_exists in Hex as [a [Ha Heq]].
    rewrite forallb_forall in Hid. apply Hid, alnum_bounds in Ha.
    apply Ascii.eqb_eq in Heq. subst a.
    change (N_of_ascii "/") with 47%N in Ha. lia. }
  pose proof (dataFilePath_simple svc id Hdir Hsimple) as Hpath.
  unfold ColdStorageService.FlushToDisk, ColdStorageService.ListCollections,
    os.OpenFileRdonly. rewrite Hpath.
  destruct (os.OpenFileTrunc fs _) as [e|fs1] eqn:Hopen; [done|]. intros [= <-].
  destruct (OpenFileTrunc_Write _ _ _ (gob.Encode d) Hopen) as (_ & -> & _).
  assert (os.Stat (<[ColdStorageService.dataDir svc ++ [id +:+ ".tsdata"]
                     := os.File (gob.Encode d)]> fs) (ColdStorageService.dataDir svc)
          = inr os.Dir) as ->.
  { revert Hopen. unfold os.OpenFileTrunc, os.Stat, os.hasNUL.
    rewrite existsb_app, removelast_last.
    destruct (existsb Strings.hasNUL (ColdStorageService.dataDir svc)); [done|].
    simpl. destruct (Strings.hasNUL _); [done|].
    destruct (ColdStorageService.dataDir svc ++ [_]) eqn:Happ;
      [by apply app_eq_nil in Happ as [_ ?]|]. rewrite <- Happ.
    rewrite walk_insert_short by (rewrite !length_app; simpl; lia).
    by destruct (os.walk fs [] _) as [?|[|?]]. }
  eexists. split; [done|].
  apply list_elem_of_omap.
  exists (id +:+ ".tsdata", os.File (gob.Encode d)). split.
  - apply elem_of_Readdir. apply lookup_insert_eq.
  - by apply collectionOfChild_data_file.
Qed.

(** X12. [getDataFileForId] fails exactly when [FlushToDisk] fails, with
    the same error; when it succeeds the data file is a regular file
    without contents, whatever it held before. *)
Theorem get_data_file_empties svc fs id d :
  (ColdStorageService.getDataFileForId svc fs id).2
  = (ColdStorageService.FlushToDisk svc fs id d).2
  ∧ ∀ fs', ColdStorageService.getDataFileForId svc fs id = (fs', None) →
      os.Stat fs' (ColdStorageService.dataFilePath svc id) = inr (os.File []) ∧
      ColdStorageService.CollectionExists svc fs' id = Ok true.
Proof.
  unfold ColdStorageService.getDataFileForId, ColdStorageService.FlushToDisk,
    ColdStorageService.CollectionExists. cbv zeta.
  destruct (os.OpenFileTrunc fs _) as [e|fs1] eqn:Hopen; (split; [done|]); [done|].
  intros fs' [= <-].
  destruct (OpenFileTrunc_Write _ _ _ [] Hopen) as (-> & _ & HS).
  by rewrite HS.
Qed.

End ColdStore.

(** ** Starting the cold store *)

Section Start.
Context `{codec : gob.Codec}.
Implicit Types (svc : ColdStorageService.t) (fs : os.FS) (cwd : list string).

Lemma Mkdir_Stat fs p fs' :
  os.Mkdir fs p = inr fs' →
  fs' = <[p := os.Dir]> fs ∧ fs !! p = None ∧ os.Stat fs' p = inr os.Dir.
Proof.
  unfold os.Mkdir, os.Stat.
  destruct (os.hasNUL p) eqn:Hnul; [done|].
  destruct p as [|c0 p0] eqn:Hp; [done|]. rewrite <- Hp in *.
  assert (p ≠ []) as Hne by by rewrite Hp.
  destruct (os.walk fs [] (removelast p)) as [e|[|b0]] eqn:Hpar; try done.
  destruct (fs !! p) as [n|] eqn:Hlook; [done|]. intros [= <-].
  split; [done|]. split; [done|].
  rewrite (app_removelast_last "" Hne) at 2.
  rewrite walk_snoc, walk_insert_short, Hpar.
  - simpl. rewrite <- (app_removelast_last "" Hne). by rewrite lookup_insert_eq.
  - simpl. rewrite (app_removelast_last "" Hne) at 2. rewrite length_app. simpl. lia.
Qed.

(** X13. When [NewColdStorageService] succeeds, the data directory of
    the service is the clean absolute path of its argument; the file
    system is as it was, or the data directory was missing, has been
    made, and is now a directory; no entry has been lost; and a second
    start over the resulting file system returns the same service and
    changes nothing. *)
Theorem new_cold_service cwd dataDir fs fs' svc :
  ColdStorageService.NewColdStorageService cwd dataDir fs = inr (fs', svc) →
  ColdStorageService.dataDir svc = filepath.Abs cwd dataDir ∧
  cleanDir (ColdStorageService.dataDir svc) = true ∧
  (fs' = fs ∨
   os.Stat fs (ColdStorageService.dataDir svc) = inl ENOENT ∧
   fs' = <[ColdStorageService.dataDir svc := os.Dir]> fs ∧
   os.Stat fs' (ColdStorageService.dataDir svc) = inr os.Dir) ∧
  (∀ p n, fs !! p = Some n → fs' !! p = Some n) ∧
  ColdStorageService.NewColdStorageService cwd dataDir fs' = inr (fs', svc).
Proof.
  unfold ColdStorageService.NewColdStorageService. cbv zeta.
  assert (cleanDir (filepath.Abs cwd dataDir) = true) as Hclean.
  { unfold filepath.Abs. destruct (filepath.IsAbs dataDir); apply cleanDir_Clean. }
  destruct (os.Stat fs (filepath.Abs cwd dataDir)) as [e|n] eqn:HS.
  - destruct e.
    + destruct (os.Mkdir fs _) as [e|fs1] eqn:Hmk; [done|]. intros [= <- <-].
      destruct (Mkdir_Stat _ _ _ Hmk) as (-> & Hnone & HS').
      simpl. split; [done|]. split; [done|]. split; [by right|]. split.
      * intros p n Hp. rewrite lookup_insert_ne; [done|]. intros <-. congruence.
      * by rewrite HS'.
    + intros [= <- <-]. simpl. rewrite HS. repeat split; auto.
    + intros [= <- <-]. simpl. rewrite HS. repeat split; auto.
    + intros [= <- <-]. simpl. rewrite HS. repeat split; auto.
  - intros [= <- <-]. simpl. rewrite HS. repeat split; auto.
Qed.

(** X14. A regular file in the place of the data directory is accepted
    at the start without an error and without a change; the service
    that results can list nothing and can flush no id without a path
    separator. *)
Theorem data_dir_is_a_file cwd dataDir fs b :
  os.Stat fs (filepath.Abs cwd dataDir) = inr (os.File b) →
  ∃ svc,
    ColdStorageService.NewColdStorageService cwd dataDir fs = inr (fs, svc) ∧
    (∃ e, ColdStorageService.ListCollections svc fs = Err e) ∧
    ∀ id d, simpleId id = true →
      ∃ e, ColdStorageService.FlushToDisk svc fs id d = (fs, Some e).
Proof.
  intros HS. unfold ColdStorageService.NewColdStorageService. cbv zeta. rewrite HS.
  eexists. split; [done|].
  unfold ColdStorageService.ListCollections, os.OpenFileRdonly. simpl. rewrite HS.
  split; [by eexists|]. intros id d Hid.
  assert (cleanDir (filepath.Abs cwd dataDir) = true) as Hclean.
  { unfold filepath.Abs. destruct (filepath.IsAbs dataDir); apply cleanDir_Clean. }
  unfold ColdStorageService.FlushToDisk.
  rewrite (dataFilePath_simple {| ColdStorageService.dataDir := filepath.Abs cwd dataDir |}
             id Hclean Hid). simpl.
  unfold os.OpenFileTrunc. destruct (os.hasNUL _); [by eexists|].
  destruct (filepath.Abs cwd dataDir ++ [_]) eqn:Happ;
    [by apply app_eq_nil in Happ as [_ ?]|]. rewrite <- Happ.
  rewrite removelast_last.
  revert HS. unfold os.Stat. destruct (os.hasNUL _); [done|]. intros ->.
  by eexists.
Qed.

End Start.

(** ** The engine *)

Section EngineProperties.
Context `{codec : gob.Codec}.
Implicit Types (w : Engine.World) (c k v : string) (d : Collection).

Lemma addId_lookup (ids : gmap string bool) a c :
  is_Some (Engine.addId ids a !! c) ↔ is_Some (ids !! c) ∨ c = a.
Proof.
  unfold Engine.addId. destruct (ids !! a) as [b|] eqn:Ha.
  - split; [by left|]. intros [?| ->]; [done|]. by rewrite Ha.
  - destruct (decide (c = a)) as [->|Hne].
    + rewrite lookup_insert_eq. split; [by right|]. by eexists.
    + rewrite lookup_insert_ne by done. split; [by left|]. by intros [?|?].
Qed.

Lemma foldl_addId_lookup (ids : gmap string bool) l c :
  is_Some (foldl Engine.addId ids l !! c) ↔ is_Some (ids !! c) ∨ c ∈ l.
Proof.
  revert ids. induction l as [|a l IH]; intros ids; simpl.
  - split; [by left|]. intros [?|Hin]; [done|]. by apply elem_of_nil in Hin.
  - rewrite IH, addId_lookup, elem_of_cons. tauto.
Qed.

(** X15. [ListCollections] of the engine returns every id that is hot
    or is listed by the cold store, each once, and nothing else; it
    fails exactly when the listing of the cold store fails, with its
    error; it never changes the state. *)
Theorem engine_list_union w :
  (∀ e, ColdStorageService.ListCollections
          (Engine.cold (Engine.engine w)) (Engine.disk w) = Err e →
        Engine.ListCollections w = (w, Err e))
  ∧ (∀ listed, ColdStorageService.ListCollections
                 (Engine.cold (Engine.engine w)) (Engine.disk w) = Ok listed →
       ∃ ids, Engine.ListCollections w = (w, Ok ids) ∧
              NoDup ids ∧
              ∀ c, c ∈ ids ↔
                   HotStorageService.CollectionExists (Engine.hot (Engine.engine w)) c = true
                   ∨ c ∈ listed).
Proof.
  unfold Engine.ListCollections, Engine.bind, Engine.hot_ListCollections,
    Engine.cold_ListCollections, Engine.ret.
  split.
  - by intros e ->.
  - intros listed ->. eexists. split; [done|]. split; [apply NoDup_fst_map_to_list|].
    intros c.
    rewrite <- (hot_list_elem (Engine.hot (Engine.engine w)) c).
    rewrite list_elem_of_fmap.
    transitivity (is_Some (foldl Engine.addId
                    (foldl Engine.addId ∅
                       (HotStorageService.ListCollections (Engine.hot (Engine.engine w))))
                    listed !! c)).
    + split.
      * intros ([c' b] & -> & Hin). apply elem_of_map_to_list in Hin. by eexists.
      * intros [b Hb]. exists (c, b). split; [done|]. by apply elem_of_map_to_list.
    + rewrite !foldl_addId_lookup, lookup_empty.
      split; [intros [[[? ?]|?]|?]; by auto|intros [?|?]; by auto].
Qed.

Lemma LoadCollectionIfNotPresent_spec w c :
  Engine.LoadCollectionIfNotPresent c w =
    match membershipOf w c with
    | Hot d => (w, Ok tt)
    | ColdOnly d => (withCollections w (<[c := d]> (hotOf w)), Ok tt)
    | Absent =>
        if Engine.autoCreateCollection (Engine.engine w)
        then (withCollections w (<[c := ∅]> (hotOf w)), Ok tt)
        else (w, Err (errorString
               ("Unable to find a collection to load into hot storage with id ["
                  +:+ c +:+ "].")))
    | Unreadable e => (w, Err e)
    end.
Proof.
  destruct w as [fs [svc [m] auto]]. unfold_engine. simpl.
  destruct (m !! c) as [d|] eqn:Hm; simpl; [done|].
  destruct (ColdStorageService.CollectionExists svc fs c) as [[|]|e]; simpl; [| |done].
  - by destruct (ColdStorageService.ReadFromDiskForId svc fs c) as [d|e].
  - destruct auto; simpl; [|done]. by rewrite ?Hm.
Qed.

Lemma queries_pure w c :
  (Engine.CollectionExists c w).1 = w ∧ (Engine.IsHot c w).1 = w.
Proof.
  destruct w as [fs [svc [m] auto]]. unfold_engine. simpl.
  destruct (m !! c) as [d|] eqn:Hm; simpl; [by rewrite ?Hm|].
  by destruct (ColdStorageService.CollectionExists svc fs c) as [[|]|e].
Qed.

(** X16. [CollectionExists] and [IsHot] never change the state.  [IsHot]
    answers true exactly for a hot id, and answers at all only for an
    id for which [CollectionExists] answers true; for a hot id
    [CollectionExists] answers true whatever the file system holds. *)
Theorem engine_queries w c :
  (Engine.CollectionExists c w).1 = w ∧
  (Engine.IsHot c w).1 = w ∧
  ((Engine.IsHot c w).2 = Ok true ↔
     HotStorageService.CollectionExists (Engine.hot (Engine.engine w)) c = true) ∧
  (∀ b, (Engine.IsHot c w).2 = Ok b → (Engine.CollectionExists c w).2 = Ok true) ∧
  (HotStorageService.CollectionExists (Engine.hot (Engine.engine w)) c = true →
     ∀ fs, (Engine.CollectionExists c (Engine.withDisk w fs)).2 = Ok true).
Proof.
  destruct w as [fs [svc [m] auto]]. unfold_engine. simpl.
  destruct (m !! c) as [d|] eqn:Hm; simpl.
  { rewrite ?Hm. repeat split; done. }
  destruct (ColdStorageService.CollectionExists svc fs c) as [[|]|e]; simpl;
    rewrite ?Hm; repeat split; try done.
  all: by intros [].
Qed.

Lemma membership_hot_inv w c d : membershipOf w c = Hot d → hotOf w !! c = Some d.
Proof.
  unfold membershipOf, hotOf.
  destruct (HotStorageService.collections _ !! c) as [d'|]; [by intros [= ->]|].
  destruct (ColdStorageService.CollectionExists _ _ c) as [[|]|e]; try done.
  by destruct (ColdStorageService.ReadFromDiskForId _ _ c).
Qed.

(** X17. [LoadCollectionIfNotPresent] never touches the file system or
    another collection, and never replaces a collection that is hot.
    When it succeeds the collection is hot and a second call changes
    nothing; when it fails the state is as it was. *)
Theorem load_if_not_present w c w1 r :
  Engine.LoadCollectionIfNotPresent c w = (w1, r) →
  Engine.disk w1 = Engine.disk w ∧
  (∀ c', c' ≠ c → hotOf w1 !! c' = hotOf w !! c') ∧
  (is_Some (hotOf w !! c) → w1 = w ∧ r = Ok tt) ∧
  match r with
  | Ok _ => is_Some (hotOf w1 !! c) ∧
            Engine.LoadCollectionIfNotPresent c w1 = (w1, Ok tt)
  | Err _ => w1 = w
  end.
Proof.
  rewrite LoadCollectionIfNotPresent_spec.
  destruct (membershipOf w c) as [d|d| |e] eqn:Hmem.
  - intros [= <- <-]. repeat split; try done.
    + rewrite (membership_hot_inv _ _ _ Hmem). by eexists.
    + by rewrite LoadCollectionIfNotPresent_spec, Hmem.
  - intros [= <- <-]. split; [done|]. split; [|split; [|split]].
    + intros c' Hne. by apply lookup_insert_ne.
    + intros [d' Hd']. by rewrite (membership_hot _ _ _ Hd') in Hmem.
    + rewrite hotOf_withCollections, lookup_insert_eq. by eexists.
    + rewrite LoadCollectionIfNotPresent_spec.
      by erewrite membership_hot by apply lookup_insert_eq.
  - destruct (Engine.autoCreateCollection _); intros [= <- <-].
    + split; [done|]. split; [|split; [|split]].
      * intros c' Hne. by apply lookup_insert_ne.
      * intros [d' Hd']. by rewrite (membership_hot _ _ _ Hd') in Hmem.
      * rewrite hotOf_withCollections, lookup_insert_eq. by eexists.
      * rewrite LoadCollectionIfNotPresent_spec.
        by erewrite membership_hot by apply lookup_insert_eq.
    + split; [done|]. split; [done|]. split; [|done].
      intros [d' Hd']. by rewrite (membership_hot _ _ _ Hd') in Hmem.
  - intros [= <- <-]. split; [done|]. split; [done|]. split; [|done].
    intros [d' Hd']. by rewrite (membership_hot _ _ _ Hd') in Hmem.
Qed.

(** X18. A hot collection shadows its cold copy: for a hot id,
    [ReadKey] and [WriteKey] return the same result and leave the same
    hot store whatever the file system holds, and [ReadKey] changes
    nothing. *)
Theorem hot_shadows_cold w c k v d fs :
  hotOf w !! c = Some d →
  Engine.ReadKey c k w = (w, (Engine.ReadKey c k w).2) ∧
  Engine.ReadKey c k (Engine.withDisk w fs)
    = (Engine.withDisk w fs, (Engine.ReadKey c k w).2) ∧
  Engine.WriteKey c k v w = (withCollections w (<[c := <[k := v]> d]> (hotOf w)), Ok tt) ∧
  Engine.WriteKey c k v (Engine.withDisk w fs)
    = (withCollections (Engine.withDisk w fs) (<[c := <[k := v]> d]> (hotOf w)), Ok tt).
Proof.
  intros Hc.
  assert (hotOf (Engine.withDisk w fs) !! c = Some d) as Hc' by done.
  rewrite !ReadKey_spec, !WriteKey_spec.
  by rewrite (membership_hot _ _ _ Hc), (membership_hot _ _ _ Hc').
Qed.

(** X19. Only a flush writes to the file system: [ReadKey], [WriteKey],
    [LoadCollectionIfNotPresent], [IsHot], [CollectionExists] and
    [ListCollections] leave it as it was, whether they succeed or fail;
    [FlushCollection] changes it at the data file of its id at most. *)
Theorem only_flush_writes w c k v :
  Engine.disk (Engine.ReadKey c k w).1 = Engine.disk w ∧
  Engine.disk (Engine.WriteKey c k v w).1 = Engine.disk w ∧
  Engine.disk (Engine.LoadCollectionIfNotPresent c w).1 = Engine.disk w ∧
  Engine.disk (Engine.IsHot c w).1 = Engine.disk w ∧
  Engine.disk (Engine.CollectionExists c w).1 = Engine.disk w ∧
  Engine.disk (Engine.ListCollections w).1 = Engine.disk w ∧
  ∀ p, p ≠ ColdStorageService.dataFilePath (Engine.cold (Engine.engine w)) c →
       Engine.disk (Engine.FlushCollection c w).1 !! p = Engine.disk w !! p.
Proof.
  rewrite ReadKey_spec, WriteKey_spec, LoadCollectionIfNotPresent_spec,
    FlushCollection_spec.
  destruct (queries_pure w c) as [-> ->].
  split; [by destruct (membershipOf w c)|].
  split; [destruct (membershipOf w c); try done;
          by destruct (Engine.autoCreateCollection _)|].
  split; [destruct (membershipOf w c); try done;
          by destruct (Engine.autoCreateCollection _)|].
  split; [done|]. split; [done|]. split.
  - unfold Engine.ListCollections, Engine.bind, Engine.hot_ListCollections,
      Engine.cold_ListCollections, Engine.ret.
    by destruct (ColdStorageService.ListCollections _ _).
  - intros p Hp. destruct (hotOf w !! c) as [d|]; [|done].
    destruct (ColdStorageService.FlushToDisk _ _ c d) as [fs' r] eqn:Hflush.
    apply FlushToDisk_spec in Hflush.
    destruct r as [e|]; simpl in *.
    + by subst fs'.
    + destruct Hflush as (-> & _ & _). by apply lookup_insert_ne.
Qed.

(** X20. Flush, write, flush: after a hot collection has been flushed,
    a [WriteKey] loads it again and adds the key to what was flushed,
    and the flush that follows succeeds and leaves that collection,
    with the new key, as the cold copy. *)
Theorem flush_write_flush `{!gob.RoundTrip codec} w c k v d w1 :
  hotOf w !! c = Some d →
  Engine.FlushCollection c w = (w1, Ok tt) →
  ∃ w2 w3,
    Engine.WriteKey c k v w1 = (w2, Ok tt) ∧
    hotOf w2 !! c = Some (<[k := v]> d) ∧
    Engine.FlushCollection c w2 = (w3, Ok tt) ∧
    membershipOf w3 c = ColdOnly (<[k := v]> d).
Proof.
  intros Hc. rewrite FlushCollection_spec, Hc.
  destruct (ColdStorageService.FlushToDisk _ _ c d) as [fs1 [e|]] eqn:Hflush; [done|].
  intros [= <-].
  pose proof (membership_flushed _ _ _ _ Hflush) as Hmem.
  destruct (FlushToDisk_again _ _ _ _ (<[k := v]> d) _ Hflush) as [Hflush2 _].
  set (fs2 := <[ColdStorageService.dataFilePath (Engine.cold (Engine.engine w)) c
                  := os.File (gob.Encode (<[k := v]> d))]> (Engine.disk w)) in *.
  set (w1 := withCollections (Engine.withDisk w fs1) (delete c (hotOf w))) in *.
  set (w2 := withCollections w1 (<[c := <[k := v]> d]> (hotOf w1))).
  assert (ColdStorageService.FlushToDisk
            (Engine.cold (Engine.engine w2)) (Engine.disk w2) c (<[k := v]> d)
          = (fs2, None)) as Hflush2' by exact Hflush2.
  exists w2, (withCollections (Engine.withDisk w2 fs2) (delete c (hotOf w2))).
  split; [by rewrite WriteKey_spec, Hmem|].
  split; [apply lookup_insert_eq|]. split.
  - rewrite FlushCollection_spec.
    assert (hotOf w2 !! c = Some (<[k := v]> d)) as -> by apply lookup_insert_eq.
    by rewrite Hflush2'.
  - by apply membership_flushed.
Qed.

End EngineProperties.

(** ** Flushing every hot collection *)

Section FlushAll.
Context `{codec : gob.Codec}.
Implicit Types (w : Engine.World) (c : string) (d : Collection) (order : list string).

Lemma FlushCollection_frame w c w1 r p n :
  Engine.FlushCollection c w = (w1, r) →
  Engine.cold (Engine.engine w1) = Engine.cold (Engine.engine w) ∧
  (p ≠ ColdStorageService.dataFilePath (Engine.cold (Engine.engine w)) c →
   os.Stat (Engine.disk w) p = inr n → os.Stat (Engine.disk w1) p = inr n).
Proof.
  rewrite FlushCollection_spec.
  destruct (hotOf w !! c) as [d|]; [|by intros [= <- <-]].
  unfold ColdStorageService.FlushToDisk.
  destruct (os.OpenFileTrunc _ _) as [e|fs1] eqn:Hopen; intros [= <- <-]; [done|].
  split; [done|]. intros Hne HS. simpl.
  destruct (OpenFileTrunc_Write _ _ _ (gob.Encode d) Hopen) as (_ & -> & _).
  by apply Stat_insert_other; [eapply OpenFileTrunc_not_Dir|..].
Qed.

(** The loop keeps the errors it was given, adds one for every id it
    could not flush, and drops from the hot store exactly the ids it
    has flushed. *)
Lemma flushEach_counts order errs w w' errs' :
  NoDup order →
  (∀ c, c ∈ order → is_Some (hotOf w !! c)) →
  Engine.flushEach order errs w = (w', errs') →
  (∃ new, errs' = errs ++ new ∧
          length new + size (hotOf w) = length order + size (hotOf w')) ∧
  (∀ c d, hotOf w' !! c = Some d → hotOf w !! c = Some d) ∧
  (∀ c, c ∉ order → hotOf w' !! c = hotOf w !! c) ∧
  Engine.cold (Engine.engine w') = Engine.cold (Engine.engine w).
Proof.
  revert errs w. induction order as [|id order IH]; intros errs w Hnd Hhot.
  - simpl. intros [= <- <-]. split; [|done]. exists []. by rewrite app_nil_r.
  - apply NoDup_cons in Hnd as [Hid Hnd]. cbn [Engine.flushEach].
    destruct (Hhot id) as [d Hd]; [by left|].
    rewrite FlushCollection_spec, Hd.
    destruct (ColdStorageService.FlushToDisk _ _ id d) as [fs' [e|]].
    + intros Hrest. apply IH in Hrest as ((new & -> & Hlen) & Hsub & Hout & Hcold);
        [|done|by intros c Hc; apply Hhot; right].
      split; [|split; [done|split; [|done]]].
      * exists (e :: new). rewrite <- app_assoc. split; [done|].
        change (hotOf (Engine.withDisk w fs')) with (hotOf w) in Hlen. simpl. lia.
      * intros c Hc. apply Hout. by intros ?; apply Hc; right.
    + intros Hrest. apply IH in Hrest as ((new & -> & Hlen) & Hsub & Hout & Hcold);
        [|done|].
      2:{ intros c Hc. rewrite hotOf_withCollections, lookup_delete_ne.
          - apply Hhot. by right.
          - by intros ->. }
      rewrite hotOf_withCollections in *.
      split; [|split; [|split; [|done]]].
      * exists new. split; [done|].
        rewrite map_size_delete_Some in Hlen by by eexists.
        assert (size (hotOf w) ≠ 0).
        { intros H0. apply map_size_empty_inv in H0. by rewrite H0, lookup_empty in Hd. }
        simpl. lia.
      * intros c d' Hc. apply Hsub in Hc. by apply lookup_delete_Some in Hc as [_ ?].
      * intros c Hc. rewrite Hout by (by intros ?; apply Hc; right).
        apply lookup_delete_ne. intros ->. apply Hc. by left.
Qed.

Lemma order_of_hot w order :
  order ≡ₚ HotStorageService.ListCollections (Engine.hot (Engine.engine w)) →
  NoDup order ∧ (∀ c, c ∈ order ↔ is_Some (hotOf w !! c)) ∧ length order = size (hotOf w).
Proof.
  intros Hperm. unfold HotStorageService.ListCollections in Hperm. fold (hotOf w) in Hperm.
  split; [|split].
  - rewrite Hperm. apply NoDup_fst_map_to_list.
  - intros c. rewrite Hperm, list_elem_of_fmap. split.
    + intros ([c' d] & -> & Hin). apply elem_of_map_to_list in Hin. by eexists.
    + intros [d Hd]. exists (c, d). split; [done|]. by apply elem_of_map_to_list.
  - by rewrite Hperm, length_fmap, length_map_to_list.
Qed.

(** X21. [FlushAllCollections], in whatever order [range] visits the hot
    ids: every collection that is hot afterwards was hot before, with
    the same contents; there are as many errors as collections still
    hot; so without an error the hot store is empty. *)
Theorem flush_all_counts w order w' errs :
  order ≡ₚ HotStorageService.ListCollections (Engine.hot (Engine.engine w)) →
  Engine.FlushAllCollectionsIn order w = (w', errs) →
  (∀ c d, hotOf w' !! c = Some d → hotOf w !! c = Some d) ∧
  length errs = size (hotOf w') ∧
  (errs = [] → hotOf w' = ∅).
Proof.
  intros (Hnd & Hin & Hlen)%order_of_hot Hall.
  apply flushEach_counts in Hall as ((new & -> & Hcount) & Hsub & _ & _);
    [|done|by intros c ?%Hin].
  simpl in *. split; [done|].
  assert (length new = size (hotOf w')) as Hsize by lia.
  split; [done|]. intros ->. by apply map_size_empty_inv.
Qed.

Lemma flushEach_keeps order errs w w' errs' p n :
  Engine.flushEach order errs w = (w', errs') →
  (∀ c, c ∈ order →
        ColdStorageService.dataFilePath (Engine.cold (Engine.engine w)) c ≠ p) →
  os.Stat (Engine.disk w) p = inr n → os.Stat (Engine.disk w') p = inr n.
Proof.
  revert errs w. induction order as [|id order IH]; intros errs w.
  - by intros [= <- <-].
  - cbn [Engine.flushEach]. intros Hrest Hpaths HS.
    destruct (Engine.FlushCollection id w) as [w1 r] eqn:Hflush.
    destruct (FlushCollection_frame _ _ _ _ p n Hflush) as [Hcold Hkeep].
    assert (os.Stat (Engine.disk w1) p = inr n) as HS1.
    { apply Hkeep; [|done]. intros ->. by apply (Hpaths id); [left|]. }
    destruct r as [[]|e]; (eapply IH; [exact Hrest| |exact HS1]);
      intros c Hc; rewrite Hcold; apply Hpaths; by right.
Qed.

Lemma membership_cold_file `{!gob.RoundTrip codec} w c d :
  hotOf w !! c = None →
  os.Stat (Engine.disk w)
    (ColdStorageService.dataFilePath (Engine.cold (Engine.engine w)) c)
    = inr (os.File (gob.Encode d)) →
  membershipOf w c = ColdOnly d.
Proof.
  unfold membershipOf, hotOf, ColdStorageService.CollectionExists,
    ColdStorageService.ReadFromDiskForId, os.OpenFileRdonly.
  intros -> HS. cbv zeta. rewrite HS. by rewrite gob.decode_encode.
Qed.

Lemma flushEach_durable `{!gob.RoundTrip codec} order errs w w' :
  NoDup order →
  (∀ c, c ∈ order → is_Some (hotOf w !! c)) →
  (∀ c1 c2, c1 ∈ order → c2 ∈ order → c1 ≠ c2 →
     ColdStorageService.dataFilePath (Engine.cold (Engine.engine w)) c1
     ≠ ColdStorageService.dataFilePath (Engine.cold (Engine.engine w)) c2) →
  Engine.flushEach order errs w = (w', errs) →
  ∀ c d, c ∈ order → hotOf w !! c = Some d →
    hotOf w' !! c = None ∧
    os.Stat (Engine.disk w')
      (ColdStorageService.dataFilePath (Engine.cold (Engine.engine w)) c)
    = inr (os.File (gob.Encode d)).
Proof.
  revert errs w. induction order as [|id order IH]; intros errs w Hnd Hhot Hpaths.
  - intros _ c d Hc. by apply elem_of_nil in Hc.
  - pose proof Hnd as [Hid Hnd']%NoDup_cons. cbn [Engine.flushEach].
    destruct (Hhot id) as [d0 Hd0]; [by left|].
    destruct (Engine.FlushCollection id w) as [w1 r] eqn:Hflush.
    pose proof Hflush as Hflush'. rewrite FlushCollection_spec, Hd0 in Hflush'.
    destruct (ColdStorageService.FlushToDisk _ _ id d0) as [fs1 [e|]] eqn:Hdisk.
    + injection Hflush' as <- <-. intros Hrest.
      apply flushEach_counts in Hrest as ((new & Heq & _) & _);
        [|done|by intros c Hc; apply Hhot; right].
      apply (f_equal length) in Heq. rewrite !length_app in Heq. simpl in Heq. lia.
    + injection Hflush' as <- <-. intros Hrest c d Hc Hd.
      set (w1 := withCollections (Engine.withDisk w fs1) (delete id (hotOf w))) in *.
      assert (∀ c', c' ∈ order → is_Some (hotOf w1 !! c')) as Hhot1.
      { intros c' Hc'. unfold w1. rewrite hotOf_withCollections, lookup_delete_ne.
        - apply Hhot. by right.
        - by intros ->. }
      apply elem_of_cons in Hc as [->|Hc].
      * assert (d = d0) as -> by congruence.
        destruct (flushEach_counts _ _ _ _ _ Hnd' Hhot1 Hrest) as (_ & _ & Hout & _).
        split.
        -- rewrite Hout by done. apply lookup_delete_eq.
        -- eapply flushEach_keeps; [exact Hrest| |].
           ++ intros c' Hc'. apply (Hpaths c' id); [by right|by left|by intros ->].
           ++ by apply FlushToDisk_spec in Hdisk as (_ & HS & _).
      * eapply (IH errs w1); try done.
        -- intros c1 c2 H1 H2 Hne. apply (Hpaths c1 c2); [by right|by right|done].
        -- unfold w1. rewrite hotOf_withCollections, lookup_delete_ne; [done|].
           by intros ->.
Qed.

(** X22. Nothing is lost by [FlushAllCollections] when no two hot ids
    share a data file and no error is returned: in whatever order
    [range] visits the ids, every collection that was hot is then cold
    only, with the contents it had. *)
Theorem flush_all_durable `{!gob.RoundTrip codec} w order w' :
  order ≡ₚ HotStorageService.ListCollections (Engine.hot (Engine.engine w)) →
  (∀ c1 c2, is_Some (hotOf w !! c1) → is_Some (hotOf w !! c2) → c1 ≠ c2 →
     ColdStorageService.dataFilePath (Engine.cold (Engine.engine w)) c1
     ≠ ColdStorageService.dataFilePath (Engine.cold (Engine.engine w)) c2) →
  Engine.FlushAllCollectionsIn order w = (w', []) →
  ∀ c d, hotOf w !! c = Some d → membershipOf w' c = ColdOnly d.
Proof.
  intros (Hnd & Hin & Hlen)%order_of_hot Hpaths Hall c d Hd.
  assert (∀ c', c' ∈ order → is_Some (hotOf w !! c')) as Hhot by by intros c' ?%Hin.
  destruct (flushEach_counts _ _ _ _ _ Hnd Hhot Hall) as (_ & _ & _ & Hcold).
  destruct (flushEach_durable order [] w w' Hnd Hhot) with (c := c) (d := d)
    as [Hgone HS]; try done.
  - intros c1 c2 H1%Hin H2%Hin. by apply Hpaths.
  - apply Hin. by eexists.
  - apply membership_cold_file; [done|]. by rewrite Hcold.
Qed.

(** X23. What has been flushed survives a restart: after a successful
    [FlushCollection] in an engine whose data directory is that of
    [NewEngine(dataDir, _)], every [NewEngine(dataDir, _)] that succeeds
    over the file system left behind finds the collection cold only,
    with its contents, and [ReadKey] returns the flushed value of every
    key. *)
Theorem flushed_survives_restart `{!gob.RoundTrip codec}
    cwd dataDir auto w c d w1 w2 :
  ColdStorageService.dataDir (Engine.cold (Engine.engine w)) = filepath.Abs cwd dataDir →
  hotOf w !! c = Some d →
  Engine.FlushCollection c w = (w1, Ok tt) →
  Engine.NewEngine cwd dataDir auto (Engine.disk w1) = inr w2 →
  hotOf w2 = ∅ ∧
  membershipOf w2 c = ColdOnly d ∧
  ∀ k v, d !! k = Some v → (Engine.ReadKey c k w2).2 = Ok v.
Proof.
  intros Hdir Hd. rewrite FlushCollection_spec, Hd.
  destruct (ColdStorageService.FlushToDisk _ _ c d) as [fs1 [e|]] eqn:Hflush; [done|].
  intros [= <-]. apply FlushToDisk_spec in Hflush as (Hfs1 & HS & _).
  destruct (Engine.cold (Engine.engine w)) as [dir] eqn:Hcold. simpl in Hdir. subst dir.
  unfold Engine.NewEngine, ColdStorageService.NewColdStorageService. cbv zeta.
  cbn [Engine.disk withCollections Engine.withHot Engine.withDisk].
  assert (∀ fs2, os.Stat fs2 (ColdStorageService.dataFilePath
                                {| ColdStorageService.dataDir := filepath.Abs cwd dataDir |} c)
                 = inr (os.File (gob.Encode d)) →
            let w2 := {| Engine.disk := fs2;
                         Engine.engine :=
                           {| Engine.cold :=
                                {| ColdStorageService.dataDir := filepath.Abs cwd dataDir |};
                              Engine.hot := HotStorageService.NewHotStorageService;
                              Engine.autoCreateCollection := auto |} |} in
            hotOf w2 = ∅ ∧ membershipOf w2 c = ColdOnly d ∧
            ∀ k v, d !! k = Some v → (Engine.ReadKey c k w2).2 = Ok v) as Hgoal.
  { intros fs2 HS2 w2'. split; [done|].
    assert (membershipOf w2' c = ColdOnly d) as Hmem
      by (by apply membership_cold_file).
    split; [done|]. intros k v Hk. rewrite ReadKey_spec, Hmem. simpl.
    by erewrite HotReadKey_found; [|apply lookup_insert_eq|]. }
  destruct (os.Stat fs1 (filepath.Abs cwd dataDir)) as [[]|n] eqn:HSdir.
  - destruct (os.Mkdir fs1 _) as [e|fs2] eqn:Hmk; [done|]. intros [= <-].
    apply Mkdir_Stat in Hmk as (-> & Hnone & _).
    apply Hgoal. apply Stat_insert_other; [by rewrite Hnone| |done].
    intros Heq. rewrite <- Heq in Hnone. rewrite Hfs1, lookup_insert_eq in Hnone. done.
  - intros [= <-]. by apply Hgoal.
  - intros [= <-]. by apply Hgoal.
  - intros [= <-]. by apply Hgoal.
  - intros [= <-]. by apply Hgoal.
Qed.

End FlushAll.

(** ** Loading, reading again, and seeing what was written *)

Section Visibility.
Context `{codec : gob.Codec}.
Implicit Types (w : Engine.World) (c k v : string) (d : Collection).

(** X24. [LoadCollection] does not look at the hot store: when the cold
    copy can be read it becomes the hot copy, replacing a hot copy that
    is there, so that a write not yet flushed is gone; when the cold
    copy cannot be read the state is as it was. *)
Theorem load_collection_replaces w c :
  (∀ d0, ColdStorageService.ReadFromDiskForId
           (Engine.cold (Engine.engine w)) (Engine.disk w) c = Ok d0 →
     Engine.LoadCollection c w = (withCollections w (<[c := d0]> (hotOf w)), Ok tt) ∧
     ∀ k v w1, Engine.WriteKey c k v w = (w1, Ok tt) →
       ∃ w2, Engine.LoadCollection c w1 = (w2, Ok tt) ∧ hotOf w2 !! c = Some d0)
  ∧ (∀ e, ColdStorageService.ReadFromDiskForId
            (Engine.cold (Engine.engine w)) (Engine.disk w) c = Err e →
       Engine.LoadCollection c w = (w, Err e)).
Proof.
  assert (∀ w', Engine.LoadCollection c w' =
            match ColdStorageService.ReadFromDiskForId
                    (Engine.cold (Engine.engine w')) (Engine.disk w') c with
            | Ok d0 => (withCollections w' (<[c := d0]> (hotOf w')), Ok tt)
            | Err e => (w', Err e)
            end) as Hload.
  { intros w'. unfold Engine.LoadCollection, Engine.bind, Engine.cold_ReadFromDiskForId,
      Engine.hot_collections_set.
    by destruct (ColdStorageService.ReadFromDiskForId _ _ c). }
  split.
  - intros d0 Hread. split; [by rewrite Hload, Hread|].
    intros k v w1 Hwrite.
    assert (Engine.cold (Engine.engine w1) = Engine.cold (Engine.engine w) ∧
            Engine.disk w1 = Engine.disk w) as [Hcold Hdisk].
    { rewrite WriteKey_spec in Hwrite.
      destruct (membershipOf w c); try destruct (Engine.autoCreateCollection _);
        by simplify_eq. }
    rewrite Hload, Hcold, Hdisk, Hread. eexists. split; [done|].
    apply lookup_insert_eq.
  - intros e Hread. by rewrite Hload, Hread.
Qed.

(** X25. What has been written can be seen: after a successful
    [WriteKey] the id is hot, [IsHot] and [CollectionExists] answer
    true, and [ListCollections], when it succeeds, returns the id. *)
Theorem written_is_visible w c k v w1 :
  Engine.WriteKey c k v w = (w1, Ok tt) →
  (Engine.IsHot c w1).2 = Ok true ∧
  (Engine.CollectionExists c w1).2 = Ok true ∧
  ∀ ids, (Engine.ListCollections w1).2 = Ok ids → c ∈ ids.
Proof.
  intros Hwrite.
  assert (∃ d, hotOf w1 !! c = Some d) as [d Hd].
  { rewrite WriteKey_spec in Hwrite.
    destruct (membershipOf w c); try destruct (Engine.autoCreateCollection _);
      simplify_eq; eexists; apply lookup_insert_eq. }
  assert (HotStorageService.CollectionExists (Engine.hot (Engine.engine w1)) c = true)
    as Hex.
  { unfold HotStorageService.CollectionExists. unfold hotOf in Hd. by rewrite Hd. }
  split; [|split].
  - unfold Engine.IsHot, Engine.CollectionExists, Engine.bind, Engine.hot_CollectionExists,
      Engine.ret. rewrite Hex. simpl. by rewrite Hex.
  - unfold Engine.CollectionExists, Engine.bind, Engine.hot_CollectionExists, Engine.ret.
    by rewrite Hex.
  - intros ids. unfold Engine.ListCollections, Engine.bind, Engine.hot_ListCollections,
      Engine.cold_ListCollections, Engine.ret.
    destruct (ColdStorageService.ListCollections _ _) as [listed|e]; [|done].
    simpl. intros [= <-]. rewrite list_elem_of_fmap.
    assert (is_Some (foldl Engine.addId
              (foldl Engine.addId ∅
                 (HotStorageService.ListCollections (Engine.hot (Engine.engine w1))))
              listed !! c)) as [b Hb].
    { rewrite !foldl_addId_lookup. left. right. by apply hot_list_elem. }
    exists (c, b). split; [done|]. by apply elem_of_map_to_list.
Qed.

(** X26. A read can be repeated: a second [ReadKey] for the same id and
    key returns what the first has returned and changes nothing, also
    when the first has loaded the collection or has failed. *)
Theorem read_repeatable w c k w1 r :
  Engine.ReadKey c k w = (w1, r) → Engine.ReadKey c k w1 = (w1, r).
Proof.
  rewrite ReadKey_spec.
  destruct (membershipOf w c) as [d|d| |e] eqn:Hmem.
  - intros [= <- <-]. by rewrite ReadKey_spec, Hmem.
  - cbv zeta. intros [= <- <-]. rewrite ReadKey_spec.
    by erewrite membership_hot by apply lookup_insert_eq.
  - intros [= <- <-]. by rewrite ReadKey_spec, Hmem.
  - intros [= <- <-]. by rewrite ReadKey_spec, Hmem.
Qed.

End Visibility.

(** ** The further properties at the example states *)

Lemma hot_create_witness :
  (HotStorageService.CollectionExists sample.store "d" = false ∧
   ∃ svc', HotStorageService.CreateCollection sample.store "d" = (svc', None) ∧
     HotStorageService.CollectionExists svc' "d" = true)
  ∧ (HotStorageService.CollectionExists sample.store "c" = true ∧
     HotStorageService.CreateCollection sample.store "c" =
       (sample.store,
        Some (errorString "Collection already exists with id [c] in hot storage."))).
Proof.
  split; (split; [vm_compute; reflexivity|]).
  - destruct (proj1 (hot_create sample.store "d")) as (svc' & Hcreate & Hex & _);
      [vm_compute; reflexivity|].
    exists svc'. by split.
  - apply (proj2 (hot_create sample.store "c")). vm_compute; reflexivity.
Defined.

Lemma hot_drop_witness :
  (HotStorageService.CollectionExists sample.store "c" = true ∧
   ∃ svc', HotStorageService.DropCollection sample.store "c" = (svc', None) ∧
     HotStorageService.CollectionExists svc' "c" = false)
  ∧ (HotStorageService.CollectionExists sample.store "d" = false ∧
     HotStorageService.DropCollection sample.store "d" =
       (sample.store,
        Some (errorString "No collection found for collection id [d] in hot storage."))).
Proof.
  split; (split; [vm_compute; reflexivity|]).
  - destruct (proj1 (hot_drop sample.store "c")) as (svc' & Hdrop & Hex & _);
      [vm_compute; reflexivity|].
    exists svc'. by split.
  - apply (proj2 (hot_drop sample.store "d")). vm_compute; reflexivity.
Defined.

Lemma hot_write_read_witness :
  (HotStorageService.CollectionExists sample.store "c" = true ∧
   ∃ svc', HotStorageService.WriteKey sample.store "c" "k2" "v2" = (svc', None) ∧
     HotStorageService.ReadKey svc' "c" "k2" = Ok "v2")
  ∧ (HotStorageService.CollectionExists sample.store "d" = false ∧
     HotStorageService.WriteKey sample.store "d" "k2" "v2" =
       (sample.store,
        Some (errorString "No collection found for collection id [d] in hot storage."))).
Proof.
  split; (split; [vm_compute; reflexivity|]).
  - destruct (proj1 (hot_write_read sample.store "c" "k2" "v2"))
      as (svc' & Hwrite & Hread & _); [vm_compute; reflexivity|].
    exists svc'. by split.
  - apply (proj2 (hot_write_read sample.store "d" "k2" "v2")). vm_compute; reflexivity.
Defined.

Lemma hot_write_write_witness :
  HotStorageService.CollectionExists sample.store "c" = true ∧
  (HotStorageService.WriteKey
     (HotStorageService.WriteKey sample.store "c" "k" "v1").1 "c" "k" "v2").1
  = (HotStorageService.WriteKey sample.store "c" "k" "v2").1.
Proof.
  split; [vm_compute; reflexivity|].
  apply (hot_write_write sample.store "c" "k" "k2" "v1" "v2"). vm_compute; reflexivity.
Defined.

Lemma simple_id_path_witness :
  (cleanDir (ColdStorageService.dataDir example.svc) = true ∧ simpleId "c" = true)
  ∧ ColdStorageService.dataFilePath example.svc "c"
    = ColdStorageService.dataDir example.svc ++ ["c" +:+ ".tsdata"].
Proof.
  split; [split; vm_compute; reflexivity|].
  apply (simple_id_path example.svc "c"); vm_compute; reflexivity.
Defined.

Lemma id_path_traversal_witness :
  (cleanDir (ColdStorageService.dataDir example.svc) = true ∧ simpleId "c" = true ∧
   simpleId "sub" = true ∧ plainElem "sub" = true)
  ∧ ColdStorageService.dataFilePath example.svc ("../" +:+ "c")
    = removelast (ColdStorageService.dataDir example.svc) ++ ["c" +:+ ".tsdata"]
  ∧ ColdStorageService.dataFilePath example.svc ("sub" +:+ "/../" +:+ "c")
    = ColdStorageService.dataFilePath example.svc "c".
Proof.
  split; [repeat split; vm_compute; reflexivity|].
  destruct (id_path_traversal example.svc "c" "sub") as [Hup Hback];
    [vm_compute; reflexivity ..|].
  split; [exact Hup|]. apply Hback; vm_compute; reflexivity.
Defined.

Lemma cold_exists_read_witness :
  (ColdStorageService.ReadFromDiskForId example.svc example.coldDisk "c" = Ok example.kv ∧
   ColdStorageService.CollectionExists example.svc example.coldDisk "c" = Ok true)
  ∧ (ColdStorageService.CollectionExists example.svc example.emptyDisk "c" = Ok false ∧
     ColdStorageService.ReadFromDiskForId example.svc example.emptyDisk "c" =
       Err (PathError "open"
              (filepath.String (ColdStorageService.dataFilePath example.svc "c")) ENOENT)).
Proof.
  split; (split; [vm_compute; reflexivity|]).
  - apply (proj1 (cold_exists_read example.svc example.coldDisk "c") example.kv).
    vm_compute; reflexivity.
  - apply (proj1 (proj2 (cold_exists_read example.svc example.emptyDisk "c"))).
    vm_compute; reflexivity.
Defined.

Lemma cold_flush_overwrites_witness :
  ColdStorageService.FlushToDisk example.svc example.emptyDisk "c" example.kv
    = (example.coldDisk, None)
  ∧ ∃ fs2,
      ColdStorageService.FlushToDisk example.svc example.coldDisk "c" sample.kv2
        = (fs2, None) ∧
      ColdStorageService.FlushToDisk example.svc example.emptyDisk "c" sample.kv2
        = (fs2, None) ∧
      ColdStorageService.ReadFromDiskForId example.svc fs2 "c" = Ok sample.kv2.
Proof.
  split; [vm_compute; reflexivity|].
  apply (cold_flush_overwrites example.svc example.emptyDisk "c" example.kv sample.kv2
           example.coldDisk).
  vm_compute; reflexivity.
Defined.

Lemma cold_flush_frame_witness :
  (ColdStorageService.FlushToDisk example.svc example.coldDisk "d" sample.kv2
     = (sample.twoFiles, None) ∧
   ColdStorageService.dataFilePath example.svc "c"
     ≠ ColdStorageService.dataFilePath example.svc "d" ∧
   ColdStorageService.ReadFromDiskForId example.svc example.coldDisk "c" = Ok example.kv)
  ∧ ColdStorageService.ReadFromDiskForId example.svc sample.twoFiles "c" = Ok example.kv
  ∧ ColdStorageService.CollectionExists example.svc sample.twoFiles "c" = Ok true.
Proof.
  assert (ColdStorageService.dataFilePath example.svc "c"
          ≠ ColdStorageService.dataFilePath example.svc "d") as Hne
    by (vm_compute; discriminate).
  split; [split; [|split]; [vm_compute; reflexivity|exact Hne|vm_compute; reflexivity]|].
  apply (cold_flush_frame example.svc example.coldDisk "d" sample.kv2 sample.twoFiles
           "c" example.kv);
    [vm_compute; reflexivity|exact Hne|vm_compute; reflexivity].
Defined.

Lemma cold_list_after_flush_witness :
  (cleanDir (ColdStorageService.dataDir example.svc) = true ∧ alnumId "c" = true ∧
   ColdStorageService.FlushToDisk example.svc example.emptyDisk "c" example.kv
     = (example.coldDisk, None))
  ∧ ∃ ids, ColdStorageService.ListCollections example.svc example.coldDisk = Ok ids ∧
           "c" ∈ ids.
Proof.
  split; [repeat split; vm_compute; reflexivity|].
  apply (cold_list_after_flush example.svc example.emptyDisk "c" example.kv
           example.coldDisk); vm_compute; reflexivity.
Defined.

Lemma get_data_file_empties_witness :
  ColdStorageService.getDataFileForId example.svc example.coldDisk "c"
    = (<[["data"; "c.tsdata"] := os.File []]> example.coldDisk, None)
  ∧ os.Stat (<[["data"; "c.tsdata"] := os.File []]> example.coldDisk)
      (ColdStorageService.dataFilePath example.svc "c") = inr (os.File [])
  ∧ ColdStorageService.CollectionExists example.svc
      (<[["data"; "c.tsdata"] := os.File []]> example.coldDisk) "c" = Ok true.
Proof.
  split; [vm_compute; reflexivity|].
  apply (proj2 (get_data_file_empties example.svc example.coldDisk "c" example.kv)).
  vm_compute; reflexivity.
Defined.

Lemma new_cold_service_witness :
  ColdStorageService.NewColdStorageService ["srv"] "data" sample.bare
    = inr (sample.made, {| ColdStorageService.dataDir := ["srv"; "data"] |})
  ∧ ColdStorageService.dataDir {| ColdStorageService.dataDir := ["srv"; "data"] |}
    = filepath.Abs ["srv"] "data"
  ∧ cleanDir (ColdStorageService.dataDir {| ColdStorageService.dataDir := ["srv"; "data"] |})
    = true
  ∧ (sample.made = sample.bare ∨
     os.Stat sample.bare
       (ColdStorageService.dataDir {| ColdStorageService.dataDir := ["srv"; "data"] |})
       = inl ENOENT ∧
     sample.made
       = <[ColdStorageService.dataDir {| ColdStorageService.dataDir := ["srv"; "data"] |}
             := os.Dir]> sample.bare ∧
     os.Stat sample.made
       (ColdStorageService.dataDir {| ColdStorageService.dataDir := ["srv"; "data"] |})
       = inr os.Dir)
  ∧ (∀ p n, sample.bare !! p = Some n → sample.made !! p = Some n)
  ∧ ColdStorageService.NewColdStorageService ["srv"] "data" sample.made
    = inr (sample.made, {| ColdStorageService.dataDir := ["srv"; "data"] |}).
Proof.
  split; [vm_compute; reflexivity|].
  apply (new_cold_service ["srv"] "data" sample.bare sample.made
           {| ColdStorageService.dataDir := ["srv"; "data"] |}).
  vm_compute; reflexivity.
Defined.

Lemma data_dir_is_a_file_witness :
  os.Stat sample.taken (filepath.Abs ["srv"] "data") = inr (os.File [])
  ∧ ∃ svc,
      ColdStorageService.NewColdStorageService ["srv"] "data" sample.taken
        = inr (sample.taken, svc) ∧
      (∃ e, ColdStorageService.ListCollections svc sample.taken = Err e) ∧
      ∀ id d, simpleId id = true →
        ∃ e, ColdStorageService.FlushToDisk svc sample.taken id d = (sample.taken, Some e).
Proof.
  split; [vm_compute; reflexivity|].
  apply (data_dir_is_a_file ["srv"] "data" sample.taken []). vm_compute; reflexivity.
Defined.

Lemma engine_list_union_witness :
  ColdStorageService.ListCollections
    (Engine.cold (Engine.engine sample.mixed)) (Engine.disk sample.mixed) = Ok ["c"]
  ∧ ∃ ids, Engine.ListCollections sample.mixed = (sample.mixed, Ok ids) ∧
           NoDup ids ∧
           ∀ c, c ∈ ids ↔
                HotStorageService.CollectionExists
                  (Engine.hot (Engine.engine sample.mixed)) c = true
                ∨ c ∈ ["c"].
Proof.
  split; [vm_compute; reflexivity|].
  apply (proj2 (engine_list_union sample.mixed) ["c"]). vm_compute; reflexivity.
Defined.

Lemma engine_queries_witness :
  HotStorageService.CollectionExists (Engine.hot (Engine.engine example.hotOnly)) "c" = true
  ∧ (∀ fs, (Engine.CollectionExists "c" (Engine.withDisk example.hotOnly fs)).2 = Ok true)
  ∧ (Engine.IsHot "c" example.coldOnly).2 = Ok false
  ∧ (Engine.CollectionExists "c" example.coldOnly).2 = Ok true.
Proof.
  split; [vm_compute; reflexivity|]. split; [|split].
  - apply (engine_queries example.hotOnly "c"). vm_compute; reflexivity.
  - vm_compute; reflexivity.
  - destruct (engine_queries example.coldOnly "c") as (_ & _ & _ & Hex & _).
    apply (Hex false). vm_compute; reflexivity.
Defined.

Lemma load_if_not_present_witness :
  Engine.LoadCollectionIfNotPresent "c" example.coldOnly
    = (withCollections example.coldOnly {["c" := example.kv]}, Ok tt)
  ∧ Engine.disk (withCollections example.coldOnly {["c" := example.kv]})
    = Engine.disk example.coldOnly
  ∧ is_Some (hotOf (withCollections example.coldOnly {["c" := example.kv]}) !! "c")
  ∧ Engine.LoadCollectionIfNotPresent "c"
      (withCollections example.coldOnly {["c" := example.kv]})
    = (withCollections example.coldOnly {["c" := example.kv]}, Ok tt).
Proof.
  split; [vm_compute; reflexivity|].
  destruct (load_if_not_present example.coldOnly "c"
              (withCollections example.coldOnly {["c" := example.kv]}) (Ok tt))
    as (Hdisk & _ & _ & Hhot & Hagain); [vm_compute; reflexivity|].
  by repeat split.
Defined.

Lemma hot_shadows_cold_witness :
  hotOf example.hotOnly !! "c" = Some example.kv
  ∧ Engine.ReadKey "c" "k" (Engine.withDisk example.hotOnly example.blockedDisk)
    = (Engine.withDisk example.hotOnly example.blockedDisk,
       (Engine.ReadKey "c" "k" example.hotOnly).2)
  ∧ Engine.WriteKey "c" "k" "v2" (Engine.withDisk example.hotOnly example.blockedDisk)
    = (withCollections (Engine.withDisk example.hotOnly example.blockedDisk)
         (<["c" := <["k" := "v2"]> example.kv]> (hotOf example.hotOnly)), Ok tt).
Proof.
  split; [vm_compute; reflexivity|].
  destruct (hot_shadows_cold example.hotOnly "c" "k" "v2" example.kv example.blockedDisk)
    as (_ & Hread & _ & Hwrite); [vm_compute; reflexivity|].
  by split.
Defined.

Lemma only_flush_writes_witness :
  Engine.disk (Engine.ReadKey "c" "k" example.coldOnly).1 = Engine.disk example.coldOnly
  ∧ ["data"] ≠ ColdStorageService.dataFilePath
                 (Engine.cold (Engine.engine example.hotOnly)) "c"
  ∧ Engine.disk (Engine.FlushCollection "c" example.hotOnly).1 !! ["data"]
    = Engine.disk example.hotOnly !! ["data"].
Proof.
  assert (["data"] ≠ ColdStorageService.dataFilePath
                       (Engine.cold (Engine.engine example.hotOnly)) "c") as Hne
    by (vm_compute; discriminate).
  split; [apply (only_flush_writes example.coldOnly "c" "k" "v")|].
  split; [exact Hne|].
  destruct (only_flush_writes example.hotOnly "c" "k" "v") as (_ & _ & _ & _ & _ & _ & Hflush).
  by apply Hflush.
Defined.

Lemma flush_write_flush_witness :
  (hotOf example.hotOnly !! "c" = Some example.kv ∧
   Engine.FlushCollection "c" example.hotOnly = (example.coldOnly, Ok tt))
  ∧ ∃ w2 w3,
      Engine.WriteKey "c" "k2" "v2" example.coldOnly = (w2, Ok tt) ∧
      hotOf w2 !! "c" = Some (<["k2" := "v2"]> example.kv) ∧
      Engine.FlushCollection "c" w2 = (w3, Ok tt) ∧
      membershipOf w3 "c" = ColdOnly (<["k2" := "v2"]> example.kv).
Proof.
  split; [split; vm_compute; reflexivity|].
  apply (flush_write_flush example.hotOnly "c" "k2" "v2" example.kv example.coldOnly);
    vm_compute; reflexivity.
Defined.

Lemma flush_all_counts_witness :
  (["c"; "d"] ≡ₚ HotStorageService.ListCollections
                   (Engine.hot (Engine.engine sample.oneBlocked)) ∧
   Engine.FlushAllCollectionsIn ["c"; "d"] sample.oneBlocked
     = ((Engine.FlushAllCollections sample.oneBlocked).1,
        [PathError "open" "/data/c.tsdata" EISDIR]))
  ∧ (∀ c d, hotOf (Engine.FlushAllCollections sample.oneBlocked).1 !! c = Some d →
            hotOf sample.oneBlocked !! c = Some d)
  ∧ length [PathError "open" "/data/c.tsdata" EISDIR]
    = size (hotOf (Engine.FlushAllCollections sample.oneBlocked).1).
Proof.
  assert (["c"; "d"] = HotStorageService.ListCollections
                         (Engine.hot (Engine.engine sample.oneBlocked))) as Horder
    by (vm_compute; reflexivity).
  assert (Engine.FlushAllCollectionsIn ["c"; "d"] sample.oneBlocked
          = ((Engine.FlushAllCollections sample.oneBlocked).1,
             [PathError "open" "/data/c.tsdata" EISDIR])) as Hall
    by (vm_compute; reflexivity).
  split; [split; [by rewrite <- Horder|exact Hall]|].
  destruct (flush_all_counts sample.oneBlocked ["c"; "d"]
              (Engine.FlushAllCollections sample.oneBlocked).1
              [PathError "open" "/data/c.tsdata" EISDIR]) as (Hsub & Hlen & _);
    [by rewrite <- Horder|exact Hall|].
  by split.
Defined.

Lemma flush_all_durable_witness :
  (["c"; "d"] ≡ₚ HotStorageService.ListCollections
                   (Engine.hot (Engine.engine sample.twoHot)) ∧
   Engine.FlushAllCollectionsIn ["c"; "d"] sample.twoHot = (sample.twoCold, []))
  ∧ membershipOf sample.twoCold "c" = ColdOnly example.kv
  ∧ membershipOf sample.twoCold "d" = ColdOnly sample.kv2.
Proof.
  assert (["c"; "d"] = HotStorageService.ListCollections
                         (Engine.hot (Engine.engine sample.twoHot))) as Horder
    by (vm_compute; reflexivity).
  assert (Engine.FlushAllCollectionsIn ["c"; "d"] sample.twoHot = (sample.twoCold, []))
    as Hall by (vm_compute; reflexivity).
  split; [split; [by rewrite <- Horder|exact Hall]|].
  assert (∀ c1 c2, is_Some (hotOf sample.twoHot !! c1) →
                   is_Some (hotOf sample.twoHot !! c2) → c1 ≠ c2 →
            ColdStorageService.dataFilePath (Engine.cold (Engine.engine sample.twoHot)) c1
            ≠ ColdStorageService.dataFilePath (Engine.cold (Engine.engine sample.twoHot)) c2)
    as Hpaths.
  { assert (∀ c, is_Some (hotOf sample.twoHot !! c) → c = "c" ∨ c = "d") as Hids.
    { intros c [d Hd]. change (hotOf sample.twoHot)
        with (<["c" := example.kv]> (<["d" := sample.kv2]> (∅ : gmap string Collection)))
        in Hd.
      apply lookup_insert_Some in Hd as [[<- _]|[_ Hd]]; [by left|].
      apply lookup_insert_Some in Hd as [[<- _]|[_ Hd]]; [by right|].
      by rewrite lookup_empty in Hd. }
    intros c1 c2 [-> | ->]%Hids [-> | ->]%Hids Hne; try done;
      vm_compute; discriminate. }
  pose proof (flush_all_durable sample.twoHot ["c"; "d"] sample.twoCold) as Hdurable.
  split; apply Hdurable; try done; try (by rewrite <- Horder); vm_compute; reflexivity.
Defined.

Lemma flushed_survives_restart_witness :
  (ColdStorageService.dataDir (Engine.cold (Engine.engine example.hotOnly))
     = filepath.Abs [] "data" ∧
   hotOf example.hotOnly !! "c" = Some example.kv ∧
   Engine.FlushCollection "c" example.hotOnly = (example.coldOnly, Ok tt) ∧
   Engine.NewEngine [] "data" true (Engine.disk example.coldOnly) = inr example.coldOnly)
  ∧ hotOf example.coldOnly = ∅
  ∧ membershipOf example.coldOnly "c" = ColdOnly example.kv
  ∧ ∀ k v, example.kv !! k = Some v → (Engine.ReadKey "c" k example.coldOnly).2 = Ok v.
Proof.
  split; [repeat split; vm_compute; reflexivity|].
  apply (flushed_survives_restart [] "data" true example.hotOnly "c" example.kv
           example.coldOnly example.coldOnly); vm_compute; reflexivity.
Defined.

Lemma load_collection_replaces_witness :
  (ColdStorageService.ReadFromDiskForId
     (Engine.cold (Engine.engine example.coldOnly)) (Engine.disk example.coldOnly) "c"
     = Ok example.kv ∧
   Engine.WriteKey "c" "k" "new" example.coldOnly
     = (withCollections example.coldOnly {["c" := <["k" := "new"]> example.kv]}, Ok tt))
  ∧ ∃ w2, Engine.LoadCollection "c"
            (withCollections example.coldOnly {["c" := <["k" := "new"]> example.kv]})
          = (w2, Ok tt) ∧
          hotOf w2 !! "c" = Some example.kv.
Proof.
  split; [split; vm_compute; reflexivity|].
  destruct (proj1 (load_collection_replaces example.coldOnly "c") example.kv)
    as [_ Hlost]; [vm_compute; reflexivity|].
  apply (Hlost "k" "new"). vm_compute; reflexivity.
Defined.

Lemma written_is_visible_witness :
  Engine.WriteKey "c" "k" "v" example.fresh = (example.hotOnly, Ok tt)
  ∧ (Engine.IsHot "c" example.hotOnly).2 = Ok true
  ∧ (Engine.CollectionExists "c" example.hotOnly).2 = Ok true
  ∧ ∀ ids, (Engine.ListCollections example.hotOnly).2 = Ok ids → "c" ∈ ids.
Proof.
  split; [vm_compute; reflexivity|].
  apply (written_is_visible example.fresh "c" "k" "v" example.hotOnly).
  vm_compute; reflexivity.
Defined.

Lemma read_repeatable_witness :
  Engine.ReadKey "c" "k" example.coldOnly
    = (withCollections example.coldOnly {["c" := example.kv]}, Ok "v")
  ∧ Engine.ReadKey "c" "k" (withCollections example.coldOnly {["c" := example.kv]})
    = (withCollections example.coldOnly {["c" := example.kv]}, Ok "v").
Proof.
  split; [vm_compute; reflexivity|].
  apply (read_repeatable example.coldOnly "c" "k"). vm_compute; reflexivity.
Defined.
